(** * leveldown: the asynchronous workers of [database_async.cc]

    A shallow embedding of the seven worker classes ([OpenWorker],
    [CloseWorker], [ReadWorker], [DeleteWorker], [WriteWorker],
    [BatchWorker], [ApproximateSizeWorker]) and of the part of their base
    class they rely on, followed by the properties of their [Execute],
    [HandleOKCallback] and [WorkComplete] methods.

    Stateful code is written in a state-and-fault monad over a [World]
    holding the database handle, the memory the workers and the JavaScript
    side share, the buffer carriers and the trace of observable effects. *)

From Stdlib Require Import ZArith Floats.SpecFloat.
From stdpp Require Import base gmap strings list fin_maps.

Local Open Scope Z_scope.

(** ** Fixed-width integers *)

(** A [uint32_t]: an integer of 32 bits without a sign. *)
Definition is_uint32 (x : Z) : bool := (0 <=? x) && (x <? 2 ^ 32).

Record uint32_t := mkUint32 {
  uint32_val : Z;
  uint32_range : is_uint32 uint32_val = true
}.

(** The conversion of an integer to [int], 32 bits in two's complement:
    the number between -2^31 and 2^31 - 1 that differs from it by a
    multiple of 2^32. *)
Definition to_int (x : Z) : Z := (x + 2 ^ 31) mod 2 ^ 32 - 2 ^ 31.

(** The conversion of an integer to [size_t], taken as 64 bits without a
    sign (one of 32 bits keeps a [uint32_t] as well). *)
Definition to_size_t (x : Z) : Z := x mod 2 ^ 64.

(** ** The storage engine's interface types (namespace [leveldb]) *)

Module leveldb.

(** [leveldb::Status]: a code and a message; [ok()] holds of [kOk] only. *)
Inductive Code :=
| kOk | kNotFound | kCorruption | kNotSupported | kInvalidArgument | kIOError.

Record Status := mkStatus { code : Code; message : string }.

Definition OK : Status := mkStatus kOk "".

Definition ok (s : Status) : bool :=
  match code s with kOk => true | _ => false end.

Inductive CompressionType := kNoCompression | kSnappyCompression.

(** An address of an engine object ([leveldb::Cache*],
    [const leveldb::FilterPolicy*]); 0 is the null pointer. *)
Definition Ptr := N.

(** [leveldb::Options], the fields [OpenWorker] assigns. The struct is
    declared by the engine ([leveldb/options.h]), outside this source:
    [write_buffer_size] and [block_size] are [size_t] there,
    [max_open_files] and [block_restart_interval] are [int]. A field holds
    a value of its type; what is assigned to it is converted to that type
    at the assignment. *)
Record Options := mkOptions {
  block_cache : Ptr;
  filter_policy : Ptr;
  create_if_missing : bool;
  error_if_exists : bool;
  compression : CompressionType;
  write_buffer_size : Z;
  block_size : Z;
  max_open_files : Z;
  block_restart_interval : Z
}.

Record ReadOptions := mkReadOptions { fill_cache : bool }.
Record WriteOptions := mkWriteOptions { sync : bool }.

(** [new leveldb::ReadOptions()] and [new leveldb::WriteOptions()]. *)
Definition ReadOptions_default : ReadOptions := mkReadOptions true.
Definition WriteOptions_default : WriteOptions := mkWriteOptions false.

(** The assignments [options->fill_cache = b] and [options->sync = b]. *)
Definition set_fill_cache (b : bool) (o : ReadOptions) : ReadOptions :=
  mkReadOptions b.
Definition set_sync (b : bool) (o : WriteOptions) : WriteOptions :=
  mkWriteOptions b.

(** [leveldb::WriteBatch]: the ordered sub-operations, bytes copied in. *)
Inductive BatchOp := BPut (k v : string) | BDelete (k : string).
Definition WriteBatch := list BatchOp.

End leveldb.

Export leveldb.

#[global] Instance Code_eq_dec : EqDecision Code.
Proof. solve_decision. Defined.
#[global] Instance Status_eq_dec : EqDecision Status.
Proof. solve_decision. Defined.

(** ** Memory, slices and JavaScript values *)

(** Addresses of byte blocks. *)
Definition loc := nat.

(** [leveldb::Slice]: a pointer and a length, no ownership. *)
Record Slice := mkSlice { data : loc; size : nat }.

(** [leveldb::Range]. *)
Record Range := mkRange { start : Slice; limit : Slice }.

#[global] Instance Slice_eq_dec : EqDecision Slice.
Proof. solve_decision. Defined.

(** A JavaScript function held through a callback reference. *)
Definition JsFunction := nat.

(** The JavaScript values the workers receive and produce. A number is an
    IEEE 754 binary64; [JsBuffer p n] is a Buffer whose backing store is
    the block at [p]; [JsStringUtf8 b] is the string that decoding the
    bytes [b] as UTF-8 gives; [JsError k m] is an error carrying a kind
    and a message. *)
Inductive JsValue :=
| JsUndefined
| JsNull
| JsNumber (d : spec_float)
| JsStringUtf8 (b : string)
| JsBuffer (p : loc) (n : nat)
| JsError (kind : Code) (msg : string).

Definition is_null (v : JsValue) : bool :=
  match v with JsNull => true | _ => false end.

(** ** Buffer carriers *)

(** Modelled from the spec: the Buffer Carrier of the data model (the
    macros and helpers of [leveldown.h] that create and release it are
    not part of the translated file). A carrier has a byte sequence, an
    origin tag and a released flag. *)
Inductive Origin := CallerImmutable | CallerMutable | InternalCopy.

(** Modelled from the spec: the attributes of a Buffer Carrier. *)
Record BufferCarrier := mkCarrier {
  bytes : string;
  origin : Origin;
  released : bool
}.

(** Modelled from the spec: releasing a carrier sets its released flag. *)
Definition release (c : BufferCarrier) : BufferCarrier :=
  mkCarrier (bytes c) (origin c) true.

(** ** Calls into the database handle and observable effects *)

Inductive DbCall :=
| CallOpen (o : Options)
| CallClose
| CallGet (o : ReadOptions) (k : string)
| CallPut (o : WriteOptions) (k v : string)
| CallDelete (o : WriteOptions) (k : string)
| CallWriteBatch (o : WriteOptions) (b : WriteBatch)
| CallApproximateSize (lo hi : string).

(** What a call into the handle returns: nothing ([Close]), a status, a
    status and the value read, or a [uint64_t] size. *)
Inductive DbResult :=
| RVoid
| RStatus (st : Status)
| RGet (st : Status) (v : string)
| RSize (n : Z).

Definition result_status (r : DbResult) : option Status :=
  match r with
  | RStatus st | RGet st _ => Some st
  | RVoid | RSize _ => None
  end.

Inductive Event :=
| EvDb (c : DbCall) (r : DbResult)
| EvDispose (handle : JsValue) (s : Slice)
| EvCall (f : JsFunction) (argv : list JsValue)
| EvDeleteCallback (f : JsFunction).

(** ** The database handle (class [Database], [database.h])

    Only the signatures of its blocking methods are used here; the engine
    behind them is an instance of this class. A [uint64_t] result is a [Z]
    with its range. *)
Class Database (D : Type) := {
  OpenDatabase : Options → D → Status * D;
  CloseDatabase : D → D;
  GetFromDatabase : ReadOptions → string → string → D → Status * string * D;
  PutToDatabase : WriteOptions → string → string → D → Status * D;
  DeleteFromDatabase : WriteOptions → string → D → Status * D;
  WriteBatchToDatabase : WriteOptions → WriteBatch → D → Status * D;
  ApproximateSizeFromDatabase : string → string → D → Z;
  ApproximateSize_uint64 :
    ∀ lo hi d, 0 ≤ ApproximateSizeFromDatabase lo hi d < 2 ^ 64
}.

(** ** Worker objects *)

(** The part of the base class [AsyncWorker] every worker carries: the
    callback reference ([None] once deleted and nulled), the status slot
    and the table of persistent handles. *)
Record AsyncWorker := mkAsyncWorker {
  callback : option JsFunction;
  status : Status;
  persistent : gmap string JsValue
}.

(** The fields each class adds: a closed set of variants. [WriteWorker]
    derives from [DeleteWorker], which derives from [IOWorker]. *)
Inductive Payload :=
| Open (options : Options)
| Close
| Read (key : Slice) (asBuffer : bool) (options : ReadOptions) (value : loc)
| Delete (key : Slice) (options : WriteOptions)
| Write (key : Slice) (options : WriteOptions) (value : Slice)
| Batch (batch : WriteBatch) (options : WriteOptions)
| ApproximateSize (range : Range) (sz : Z).

Record Worker := mkWorker { base : AsyncWorker; payload : Payload }.

Definition with_base (a : AsyncWorker) (w : Worker) : Worker :=
  mkWorker a (payload w).

(** [SaveToPersistent] and [GetFromPersistent] of the base class: the
    table of handles the worker keeps alive, by name. *)
Definition SaveToPersistent (name : string) (v : JsValue) (a : AsyncWorker)
  : AsyncWorker :=
  mkAsyncWorker (callback a) (status a) (<[name := v]> (persistent a)).

Definition GetFromPersistent (name : string) (a : AsyncWorker) : JsValue :=
  default JsUndefined (persistent a !! name).

(** ** The world and the monad of effects *)

Section Workers.

Context {D : Type} `{!Database D}.

Record World := mkWorld {
  db : D;
  heap : gmap loc string;
  carriers : gmap loc BufferCarrier;
  trace : list Event
}.

(** A computation either faults ([None]: a null dereference, a read of a
    block that is not there, a second release) or returns a result and
    the new world. *)
Definition M (A : Type) : Type := World → option (A * World).

Definition ret {A} (x : A) : M A := λ σ, Some (x, σ).

Definition bind {A B} (m : M A) (k : A → M B) : M B :=
  λ σ, match m σ with
       | Some (x, σ') => k x σ'
       | None => None
       end.

Definition fault {A} : M A := λ _, None.

Notation "'let!' x ':=' m 'in' k" := (bind m (λ x, k))
  (at level 10, x name, m at level 100, k at level 200).
Notation "m ;; k" := (bind m (λ _, k))
  (at level 100, k at level 200, right associativity).

Definition emit (e : Event) : M unit :=
  λ σ, Some (tt, mkWorld (db σ) (heap σ) (carriers σ) (trace σ ++ [e])).

(** One call into the database handle: run on the handle, and logged
    with what it returned. *)
Definition call_db {A} (c : DbCall) (f : D → A * D) (res : A → DbResult)
  : M A :=
  λ σ, let '(r, d) := f (db σ) in
       Some (r, mkWorld d (heap σ) (carriers σ) (trace σ ++ [EvDb c (res r)])).

Definition load (p : loc) : M string :=
  λ σ, match heap σ !! p with Some b => Some (b, σ) | None => None end.

Definition store (p : loc) (b : string) : M unit :=
  λ σ, match heap σ !! p with
       | Some _ => Some (tt, mkWorld (db σ) (<[p := b]> (heap σ)) (carriers σ) (trace σ))
       | None => None
       end.

(** A new block, at an address used by no block and no carrier. *)
Definition alloc (b : string) : M loc :=
  λ σ, let p := fresh (dom (heap σ) ∪ dom (carriers σ)) in
       Some (p, mkWorld (db σ) (<[p := b]> (heap σ)) (carriers σ) (trace σ)).

(** The bytes a slice views: those of its carrier, which must still be
    held. *)
Definition slice_bytes (s : Slice) : M string :=
  λ σ, match carriers σ !! data s with
       | Some c => if released c then None
                   else Some (String.substring 0 (size s) (bytes c), σ)
       | None => None
       end.

(** Modelled from the spec: [DisposeStringOrBufferFromSlice] of
    [leveldown.h], which is not part of the translated file. It releases
    the carrier behind the slice; releasing a carrier that is not held
    (again, or never created) is a fault. *)
Definition DisposeStringOrBufferFromSlice (handle : JsValue) (s : Slice)
  : M unit :=
  λ σ, match carriers σ !! data s with
       | Some c =>
           if released c then None
           else Some (tt, mkWorld (db σ) (heap σ)
                            (<[data s := release c]> (carriers σ))
                            (trace σ ++ [EvDispose handle s]))
       | None => None
       end.

(** ** JavaScript side: the calls of [Nan] and N-API the workers make *)

(** [callback->Call(argc, argv)] on the worker's callback reference. *)
Definition Call (a : AsyncWorker) (argv : list JsValue) : M unit :=
  match callback a with
  | Some f => emit (EvCall f argv)
  | None => fault
  end.

(** [delete callback; callback = NULL;] *)
Definition delete_callback (a : AsyncWorker) : M AsyncWorker :=
  match callback a with
  | Some f => emit (EvDeleteCallback f) ;;
              ret (mkAsyncWorker None (status a) (persistent a))
  | None => ret a
  end.

(** [Nan::CopyBuffer(data, size)]: a new Buffer whose backing store is a
    new block holding the first [size] bytes found at [data]. *)
Definition CopyBuffer (p : loc) (n : nat) : M JsValue :=
  let! b := load p in
  let! q := alloc (String.substring 0 n b) in
  ret (JsBuffer q n).

(** [Nan::New<v8::String>(data, size)]: the first [size] bytes at [data],
    decoded as UTF-8. *)
Definition NewString (p : loc) (n : nat) : M JsValue :=
  let! b := load p in
  ret (JsStringUtf8 (String.substring 0 n b)).

(** [(double) size] for a [uint64_t]: the nearest binary64, ties to even. *)
Definition uint64_to_double (n : Z) : spec_float :=
  binary_normalize 53 1024 n 0 false.

(** [napi_create_number(env, d)]. *)
Definition napi_create_number (d : spec_float) : JsValue := JsNumber d.

(** ** The base class [AsyncWorker] *)

(** Modelled from the spec: [async.h], which declares the base class, is
    not part of the translated file. The constructor keeps the callback
    and starts with an OK status and no persistent handle. *)
Definition AsyncWorker_ctor (callback : JsFunction) : AsyncWorker :=
  mkAsyncWorker (Some callback) OK ∅.

(** Modelled from the spec: [SetStatus] of [async.h] records a status in
    the worker's status slot. *)
Definition SetStatus (st : Status) (a : AsyncWorker) : AsyncWorker :=
  mkAsyncWorker (callback a) st (persistent a).

(** Modelled from the spec: the default [HandleOKCallback] of the base
    class calls back with a null error and a null result. *)
Definition AsyncWorker_HandleOKCallback (w : Worker) : M unit :=
  Call (base w) [JsNull; JsNull].

(** Modelled from the spec: the error shape of the callback convention.
    The recorded status becomes the callback's error argument, an error
    carrying a kind and a message, and the result is null. *)
Definition error_argv (st : Status) : list JsValue :=
  [JsError (code st) (message st); JsNull].

(** Modelled from the spec: the [HandleErrorCallback] of the base class
    calls back in the error shape for the recorded status. *)
Definition AsyncWorker_HandleErrorCallback (w : Worker) : M unit :=
  Call (base w) (error_argv (status (base w))).

(** ** OPEN WORKER *)

Definition OpenWorker_ctor (callback : JsFunction)
    (blockCache filterPolicy : Ptr)
    (createIfMissing errorIfExists compression : bool)
    (writeBufferSize blockSize maxOpenFiles blockRestartInterval : uint32_t)
  : Worker :=
  let options :=
    {| block_cache := blockCache;
       filter_policy := filterPolicy;
       create_if_missing := createIfMissing;
       error_if_exists := errorIfExists;
       compression := if compression then kSnappyCompression
                      else kNoCompression;
       write_buffer_size := to_size_t (uint32_val writeBufferSize);
       block_size := to_size_t (uint32_val blockSize);
       max_open_files := to_int (uint32_val maxOpenFiles);
       block_restart_interval := to_int (uint32_val blockRestartInterval) |} in
  mkWorker (AsyncWorker_ctor callback) (Open options).

Definition OpenWorker_Execute (w : Worker) : M Worker :=
  match payload w with
  | Open options =>
      let! st := call_db (CallOpen options) (OpenDatabase options) RStatus in
      ret (with_base (SetStatus st (base w)) w)
  | _ => fault
  end.

(** ** CLOSE WORKER *)

Definition CloseWorker_ctor (callback : JsFunction) : Worker :=
  mkWorker (AsyncWorker_ctor callback) Close.

Definition CloseWorker_Execute (w : Worker) : M Worker :=
  match payload w with
  | Close =>
      call_db CallClose (λ d, (tt, CloseDatabase d)) (λ _, RVoid) ;;
      ret w
  | _ => fault
  end.

(** ** IO WORKER (abstract) *)

Definition IOWorker_ctor (callback : JsFunction) (key : Slice)
    (keyHandle : JsValue) : AsyncWorker * Slice :=
  (SaveToPersistent "key" keyHandle (AsyncWorker_ctor callback), key).

(** ** READ WORKER *)

(** The [std::string value] member is a block of its own, empty at
    construction. *)
Definition ReadWorker_ctor (callback : JsFunction) (key : Slice)
    (asBuffer fillCache : bool) (keyHandle : JsValue) : M Worker :=
  let '(a, key) := IOWorker_ctor callback key keyHandle in
  let! value := alloc "" in
  let options := ReadOptions_default in
  let options := set_fill_cache fillCache options in
  ret (mkWorker (SaveToPersistent "key" keyHandle a)
         (Read key asBuffer options value)).

Definition ReadWorker_Execute (w : Worker) : M Worker :=
  match payload w with
  | Read key asBuffer options value =>
      let! k := slice_bytes key in
      let! old := load value in
      let! r := call_db (CallGet options k) (GetFromDatabase options k old)
                  (λ r, RGet (fst r) (snd r)) in
      store value (snd r) ;;
      ret (with_base (SetStatus (fst r) (base w)) w)
  | _ => fault
  end.

Definition ReadWorker_HandleOKCallback (w : Worker) : M unit :=
  match payload w with
  | Read key asBuffer options value =>
      let! v := load value in
      let! returnValue :=
        (if asBuffer then CopyBuffer value (String.length v)
         else NewString value (String.length v)) in
      Call (base w) [JsNull; returnValue]
  | _ => fault
  end.

(** ** DELETE WORKER *)

Definition DeleteWorker_ctor (callback : JsFunction) (key : Slice)
    (sync : bool) (keyHandle : JsValue)
  : AsyncWorker * Slice * WriteOptions :=
  let '(a, key) := IOWorker_ctor callback key keyHandle in
  let options := WriteOptions_default in
  let options := set_sync sync options in
  (SaveToPersistent "key" keyHandle a, key, options).

(** A worker whose dynamic type is [DeleteWorker]. *)
Definition DeleteWorker_new (callback : JsFunction) (key : Slice)
    (sync : bool) (keyHandle : JsValue) : Worker :=
  let '(a, key, options) := DeleteWorker_ctor callback key sync keyHandle in
  mkWorker a (Delete key options).

Definition DeleteWorker_Execute (w : Worker) : M Worker :=
  match payload w with
  | Delete key options =>
      let! k := slice_bytes key in
      let! st := call_db (CallDelete options k)
                   (DeleteFromDatabase options k) RStatus in
      ret (with_base (SetStatus st (base w)) w)
  | _ => fault
  end.

(** ** WRITE WORKER *)

Definition WriteWorker_ctor (callback : JsFunction) (key value : Slice)
    (sync : bool) (keyHandle valueHandle : JsValue) : Worker :=
  let '(a, key, options) := DeleteWorker_ctor callback key sync keyHandle in
  mkWorker (SaveToPersistent "value" valueHandle a) (Write key options value).

Definition WriteWorker_Execute (w : Worker) : M Worker :=
  match payload w with
  | Write key options value =>
      let! k := slice_bytes key in
      let! v := slice_bytes value in
      let! st := call_db (CallPut options k v)
                   (PutToDatabase options k v) RStatus in
      ret (with_base (SetStatus st (base w)) w)
  | _ => fault
  end.

(** ** BATCH WORKER *)

Definition BatchWorker_ctor (callback : JsFunction) (batch : WriteBatch)
    (sync : bool) : Worker :=
  let options := WriteOptions_default in
  let options := set_sync sync options in
  mkWorker (AsyncWorker_ctor callback) (Batch batch options).

Definition BatchWorker_Execute (w : Worker) : M Worker :=
  match payload w with
  | Batch batch options =>
      let! st := call_db (CallWriteBatch options batch)
                   (WriteBatchToDatabase options batch) RStatus in
      ret (with_base (SetStatus st (base w)) w)
  | _ => fault
  end.

(** ** APPROXIMATE SIZE WORKER *)

(** The constructor does not initialise the [size] member: [size0] is
    what it holds until [Execute] assigns it. *)
Definition ApproximateSizeWorker_ctor (callback : JsFunction)
    (start end_ : Slice) (startHandle endHandle : JsValue) (size0 : Z)
  : Worker :=
  let a := AsyncWorker_ctor callback in
  let a := SaveToPersistent "start" startHandle a in
  let a := SaveToPersistent "end" endHandle a in
  mkWorker a (ApproximateSize (mkRange start end_) size0).

Definition ApproximateSizeWorker_Execute (w : Worker) : M Worker :=
  match payload w with
  | ApproximateSize range _ =>
      let! lo := slice_bytes (start range) in
      let! hi := slice_bytes (limit range) in
      let! n := call_db (CallApproximateSize lo hi)
                  (λ d, (ApproximateSizeFromDatabase lo hi d, d)) RSize in
      ret (mkWorker (base w) (ApproximateSize range n))
  | _ => fault
  end.

Definition ApproximateSizeWorker_HandleOKCallback (w : Worker) : M unit :=
  match payload w with
  | ApproximateSize range sz =>
      let returnValue := napi_create_number (uint64_to_double sz) in
      Call (base w) [JsNull; returnValue]
  | _ => fault
  end.

(** ** Virtual dispatch and the completion methods *)

Definition Execute (w : Worker) : M Worker :=
  match payload w with
  | Open _ => OpenWorker_Execute w
  | Close => CloseWorker_Execute w
  | Read _ _ _ _ => ReadWorker_Execute w
  | Delete _ _ => DeleteWorker_Execute w
  | Write _ _ _ => WriteWorker_Execute w
  | Batch _ _ => BatchWorker_Execute w
  | ApproximateSize _ _ => ApproximateSizeWorker_Execute w
  end.

Definition HandleOKCallback (w : Worker) : M unit :=
  match payload w with
  | Read _ _ _ _ => ReadWorker_HandleOKCallback w
  | ApproximateSize _ _ => ApproximateSizeWorker_HandleOKCallback w
  | _ => AsyncWorker_HandleOKCallback w
  end.

(** Modelled from the spec: [AsyncWorker::WorkComplete] of the base class
    ([async.h] is not part of the translated file) hands the result to the
    callback, in the success shape when the recorded status is OK and in
    the error shape otherwise, then lets go of the callback reference. *)
Definition AsyncWorker_WorkComplete (w : Worker) : M Worker :=
  (if ok (status (base w)) then HandleOKCallback w
   else AsyncWorker_HandleErrorCallback w) ;;
  let! a := delete_callback (base w) in
  ret (with_base a w).

Definition CloseWorker_WorkComplete (w : Worker) : M Worker :=
  HandleOKCallback w ;;
  let! a := delete_callback (base w) in
  ret (with_base a w).

Definition IOWorker_WorkComplete (w : Worker) : M Worker :=
  match payload w with
  | Read key _ _ _ | Delete key _ | Write key _ _ =>
      DisposeStringOrBufferFromSlice (GetFromPersistent "key" (base w)) key ;;
      AsyncWorker_WorkComplete w
  | _ => fault
  end.

Definition WriteWorker_WorkComplete (w : Worker) : M Worker :=
  match payload w with
  | Write _ _ value =>
      DisposeStringOrBufferFromSlice
        (GetFromPersistent "value" (base w)) value ;;
      IOWorker_WorkComplete w
  | _ => fault
  end.

Definition ApproximateSizeWorker_WorkComplete (w : Worker) : M Worker :=
  match payload w with
  | ApproximateSize range _ =>
      DisposeStringOrBufferFromSlice
        (GetFromPersistent "start" (base w)) (start range) ;;
      DisposeStringOrBufferFromSlice
        (GetFromPersistent "end" (base w)) (limit range) ;;
      AsyncWorker_WorkComplete w
  | _ => fault
  end.

Definition WorkComplete (w : Worker) : M Worker :=
  match payload w with
  | Open _ | Batch _ _ => AsyncWorker_WorkComplete w
  | Close => CloseWorker_WorkComplete w
  | Read _ _ _ _ | Delete _ _ => IOWorker_WorkComplete w
  | Write _ _ _ => WriteWorker_WorkComplete w
  | ApproximateSize _ _ => ApproximateSizeWorker_WorkComplete w
  end.

(** Modelled from the spec: the Dispatcher (the host's task queue) runs
    [Execute], then the completion on the caller thread. *)
Definition dispatch (w : Worker) : M Worker :=
  let! w1 := Execute w in
  WorkComplete w1.

End Workers.

Arguments World D : clear implicits.
Arguments M D A : clear implicits.

(** ** An engine to run the workers on *)

(** Modelled from the spec: the Database Handle of section 4.1
    ([database.cc] is not part of the translated file), as an ordered
    store in memory. [files] is what is on disk ([None]: nothing yet),
    [opened] tells whether the handle holds an engine instance. *)
Record MemDb := mkMemDb {
  files : option (gmap string string);
  opened : bool
}.

(** The stored pairs; none when nothing is on disk. *)
Definition mem_contents (d : MemDb) : gmap string string :=
  default ∅ (files d).

(** Modelled from the spec: open fails when the store exists and
    [error_if_exists] is set, or is missing and [create_if_missing] is
    not set. *)
Definition mem_open (o : Options) (d : MemDb) : Status * MemDb :=
  match files d with
  | None =>
      if create_if_missing o then (OK, mkMemDb (Some ∅) true)
      else (mkStatus kInvalidArgument "does not exist", d)
  | Some m =>
      if error_if_exists o then (mkStatus kInvalidArgument "exists", d)
      else (OK, mkMemDb (Some m) true)
  end.

(** Modelled from the spec: close releases the engine instance. *)
Definition mem_close (d : MemDb) : MemDb := mkMemDb (files d) false.

(** Modelled from the spec: operations other than open and close fail on
    a closed handle. *)
Definition not_open : Status := mkStatus kIOError "not open".

(** Modelled from the spec: get fails with NotFound when the key is
    absent, and then leaves the caller's value as it was. *)
Definition mem_get (o : ReadOptions) (k old : string) (d : MemDb)
  : Status * string * MemDb :=
  if opened d then
    match mem_contents d !! k with
    | Some v => (OK, v, d)
    | None => (mkStatus kNotFound "", old, d)
    end
  else (not_open, old, d).

(** Modelled from the spec: a batch applies its sub-operations in order,
    all of them or none; put and delete are batches of one. *)
Definition mem_apply (op : BatchOp) (m : gmap string string)
  : gmap string string :=
  match op with
  | BPut k v => <[k := v]> m
  | BDelete k => delete k m
  end.

Definition mem_write (o : WriteOptions) (b : WriteBatch) (d : MemDb)
  : Status * MemDb :=
  if opened d then
    (OK, mkMemDb (Some (foldl (λ m op, mem_apply op m) (mem_contents d) b)) true)
  else (not_open, d).

Definition mem_put (o : WriteOptions) (k v : string) : MemDb → Status * MemDb :=
  mem_write o [BPut k v].

Definition mem_delete (o : WriteOptions) (k : string) : MemDb → Status * MemDb :=
  mem_write o [BDelete k].

(** Modelled from the spec: the size of a range is an estimate, here the
    bytes of the keys and values from [lo] up to [hi], as a [uint64_t]. *)
Definition in_range (lo hi k : string) : bool :=
  String.leb lo k && String.ltb k hi.

Definition mem_size (lo hi : string) (d : MemDb) : Z :=
  (map_fold (λ k v acc,
     if in_range lo hi k
     then acc + Z.of_nat (String.length k + String.length v) else acc)
    0 (mem_contents d)) `mod` 2 ^ 64.

#[global] Program Instance MemDb_Database : Database MemDb := {|
  OpenDatabase := mem_open;
  CloseDatabase := mem_close;
  GetFromDatabase := mem_get;
  PutToDatabase := mem_put;
  DeleteFromDatabase := mem_delete;
  WriteBatchToDatabase := mem_write;
  ApproximateSizeFromDatabase := mem_size
|}.
Next Obligation. intros. unfold mem_size. apply Z.mod_pos_bound. lia. Qed.

(** An engine that answers every size request with the estimate it was
    made with, and every other call with OK: the interface leaves the
    estimate to the engine. *)
Record EstimateDb := mkEstimateDb { estimate : Z }.

#[global] Program Instance EstimateDb_Database : Database EstimateDb := {|
  OpenDatabase := λ _ d, (OK, d);
  CloseDatabase := λ d, d;
  GetFromDatabase := λ _ _ old d, (OK, old, d);
  PutToDatabase := λ _ _ _ d, (OK, d);
  DeleteFromDatabase := λ _ _ d, (OK, d);
  WriteBatchToDatabase := λ _ _ d, (OK, d);
  ApproximateSizeFromDatabase := λ _ _ d, estimate d `mod` 2 ^ 64
|}.
Next Obligation. intros. apply Z.mod_pos_bound. lia. Qed.

(** ** Sample worlds *)

(** Two carriers, for the keys ["a"] and ["zz"], and one block, at the
    address [ReadWorker_ctor] gets for the [value] member. *)
Definition sample_carriers : gmap loc BufferCarrier :=
  {[ 1%nat := mkCarrier "a" InternalCopy false;
     2%nat := mkCarrier "zz" InternalCopy false ]}.

Definition sample_heap : gmap loc string := {[ 3%nat := "" ]}.

(** An open store holding ["a"] with the value ["1"]. *)
Definition sample_world : World MemDb :=
  mkWorld (mkMemDb (Some {[ "a" := "1" ]}) true) sample_heap sample_carriers [].

(** The sample world once a read has stored the value ["1"]. *)
Definition read_done_world : World MemDb :=
  mkWorld (db sample_world) {[ 3%nat := "1" ]} sample_carriers [].

(** An engine whose estimate is one above 2^53. *)
Definition large_world : World EstimateDb :=
  mkWorld (mkEstimateDb (2 ^ 53 + 1)) sample_heap sample_carriers [].

Definition key_a : Slice := mkSlice 1%nat 1%nat.
Definition key_zz : Slice := mkSlice 2%nat 2%nat.

(** Sample workers, with the callback 7. The read worker is as
    [ReadWorker_ctor] leaves it, its [value] member at address 3. *)
Definition read_worker (key : Slice) (asBuffer : bool) : Worker :=
  mkWorker (SaveToPersistent "key" (JsStringUtf8 "k") (AsyncWorker_ctor 7%nat))
    (Read key asBuffer (mkReadOptions true) 3%nat).

Definition delete_worker : Worker :=
  DeleteWorker_new 7%nat key_a false (JsStringUtf8 "a").

Definition write_worker : Worker :=
  WriteWorker_ctor 7%nat key_a key_zz true (JsStringUtf8 "a") (JsStringUtf8 "zz").

Definition size_worker : Worker :=
  ApproximateSizeWorker_ctor 7%nat key_a key_zz
    (JsStringUtf8 "a") (JsStringUtf8 "zz") 0.

(** A close worker whose status slot holds a failure. *)
Definition close_worker_failed : Worker :=
  mkWorker (SetStatus not_open (AsyncWorker_ctor 7%nat)) Close.

(** ** Vocabulary of the properties *)

(** The slices a worker keeps a carrier for, class by class: [key] for the
    I/O workers, [value] as well for a write, both halves of the range
    for a size request. *)
Definition held_slices (p : Payload) : list Slice :=
  match p with
  | Read key _ _ _ | Delete key _ => [key]
  | Write key _ value => [value; key]
  | ApproximateSize range _ => [start range; limit range]
  | Open _ | Close | Batch _ _ => []
  end.

(** A slice whose carrier is there and has not been released. *)
Definition held {D} (s : Slice) (σ : World D) : Prop :=
  ∃ c, carriers σ !! data s = Some c ∧ released c = false.

(** A slice whose carrier has been released. *)
Definition let_go {D} (s : Slice) (σ : World D) : Prop :=
  ∃ c, carriers σ !! data s = Some c ∧ released c = true.

(** The block of a read worker's [value] member is there. *)
Definition value_allocated {D} (w : Worker) (σ : World D) : Prop :=
  match payload w with
  | Read _ _ _ value => is_Some (heap σ !! value)
  | _ => True
  end.

(** What [Execute] and the completion need to find in memory: every
    carrier held, each behind its own address, and for a read the block
    of the [value] member. *)
Definition ready {D} (w : Worker) (σ : World D) : Prop :=
  Forall (λ s, held s σ) (held_slices (payload w)) ∧
  NoDup (data <$> held_slices (payload w)) ∧
  value_allocated w σ.

(** The releases of the carrier behind address [p] in a trace. *)
Definition is_disposal (p : loc) (e : Event) : bool :=
  match e with
  | EvDispose _ s => Nat.eqb (data s) p
  | _ => false
  end.

Definition disposals (p : loc) (es : list Event) : nat :=
  length (List.filter (is_disposal p) es).

(** The callback invocations of a trace, in order. *)
Definition calls (es : list Event) : list (JsFunction * list JsValue) :=
  omap (λ e, match e with EvCall f argv => Some (f, argv) | _ => None end) es.

(** The calls into the database handle of a trace, in order. *)
Definition db_calls (es : list Event) : list (DbCall * DbResult) :=
  omap (λ e, match e with EvDb c r => Some (c, r) | _ => None end) es.

(** The success shape of the callback convention: a null error first. *)
Definition success_shape (argv : list JsValue) : bool :=
  match argv with
  | e :: _ => is_null e
  | [] => false
  end.

(** The write options of a worker that has some. *)
Definition write_options_of (w : Worker) : option WriteOptions :=
  match payload w with
  | Delete _ o | Write _ o _ | Batch _ o => Some o
  | _ => None
  end.

(** The sync-write-options construction in the words of the spec: a
    write-options struct whose [sync] field is the flag. *)
Definition sync_write_options (flag : bool) : WriteOptions :=
  {| sync := flag |}.

(** The integer a binary64 denotes, when it denotes one. *)
Definition double_to_Z (d : spec_float) : option Z :=
  match d with
  | S754_zero _ => Some 0
  | S754_finite s m e =>
      let sign := if s then -1 else 1 in
      if 0 <=? e then Some (sign * (Z.pos m * 2 ^ e))
      else if Z.pos m mod 2 ^ (- e) =? 0
           then Some (sign * (Z.pos m / 2 ^ (- e)))
           else None
  | S754_infinity _ | S754_nan => None
  end.

(** The integers a binary64 holds exactly: those whose binary digits
    after the first 53 are all zero. *)
Definition representable (n : Z) : Prop :=
  n mod 2 ^ Z.max 0 (Zdigits2 n - 53) = 0.

(** The number a callback received as its second argument. *)
Definition delivered_size (argv : list JsValue) : option Z :=
  match argv with
  | [_; JsNumber d] => double_to_Z d
  | _ => None
  end.

(** The number an [int] field shows once a [uint32_t] was assigned to
    it: the same number below 2^31, and 2^32 less from there on. *)
Definition seen_as_int (x : uint32_t) : Z :=
  if uint32_val x <? 2 ^ 31 then uint32_val x else uint32_val x - 2 ^ 32.

(** C4 in the words of the claim: the options struct the handle's open
    receives carries the given values unchanged. *)
Definition options_forwarded_unchanged {D} `{!Database D}
    (f : JsFunction) (blockCache filterPolicy : Ptr)
    (createIfMissing errorIfExists compression_ : bool)
    (writeBufferSize blockSize maxOpenFiles blockRestartInterval : uint32_t)
    (σ : World D) : Prop :=
  ∃ o r w' σ',
    Execute (OpenWorker_ctor f blockCache filterPolicy createIfMissing
               errorIfExists compression_ writeBufferSize blockSize
               maxOpenFiles blockRestartInterval) σ = Some (w', σ') ∧
    trace σ' = trace σ ++ [EvDb (CallOpen o) r] ∧
    create_if_missing o = createIfMissing ∧
    error_if_exists o = errorIfExists ∧
    write_buffer_size o = uint32_val writeBufferSize ∧
    block_size o = uint32_val blockSize ∧
    max_open_files o = uint32_val maxOpenFiles ∧
    block_restart_interval o = uint32_val blockRestartInterval ∧
    compression o = (if compression_ then kSnappyCompression
                     else kNoCompression).

(** C2 in the words of the claim: [Execute] calls into the handle and the
    status the call returned is in the worker's status slot. *)
Definition records_resulting_status {D} `{!Database D}
    (w : Worker) (σ : World D) : Prop :=
  ∃ w' σ' c r st,
    Execute w σ = Some (w', σ') ∧
    trace σ' = trace σ ++ [EvDb c r] ∧
    result_status r = Some st ∧
    status (base w') = st.

(** C6 in the words of the claim: the size the callback receives is the
    estimate the engine returned. *)
Definition size_delivered_exactly {D} `{!Database D}
    (w : Worker) (σ : World D) : Prop :=
  ∃ w1 σ1 σ2 c n f argv,
    Execute w σ = Some (w1, σ1) ∧
    trace σ1 = trace σ ++ [EvDb c (RSize n)] ∧
    HandleOKCallback w1 σ1 = Some (tt, σ2) ∧
    trace σ2 = trace σ1 ++ [EvCall f argv] ∧
    delivered_size argv = Some n.

(** The names under which a worker saved the handles of the slices it
    holds, in the order of [held_slices]: the names its completion looks
    up. *)
Definition handle_names (p : Payload) : list string :=
  match p with
  | Read _ _ _ _ | Delete _ _ => ["key"]
  | Write _ _ _ => ["value"; "key"]
  | ApproximateSize _ _ => ["start"; "end"]
  | Open _ | Close | Batch _ _ => []
  end.

(** The releases a completion makes: each held slice with the handle
    found under its name. *)
Definition release_events (w : Worker) : list Event :=
  zip_with EvDispose
    ((λ name, GetFromPersistent name (base w)) <$> handle_names (payload w))
    (held_slices (payload w)).

(** The address of the [value] member, for a read worker. *)
Definition value_block (p : Payload) : option loc :=
  match p with
  | Read _ _ _ value => Some value
  | _ => None
  end.

(** The state of a right shift of [p] by [j] digits: the mantissa left,
    and what the round and sticky bits say of the remainder. *)
Definition shifted (j : Z) (mrs : shr_record) (p : Z) : Prop :=
  ∃ rem,
    0 ≤ rem < 2 ^ j ∧
    0 ≤ shr_m mrs ∧
    p = shr_m mrs * 2 ^ j + rem ∧
    (shr_r mrs = true ↔ 2 ^ j ≤ 2 * rem) ∧
    (shr_s mrs = true ↔ rem ≠ 0 ∧ 2 * rem ≠ 2 ^ j).

(** A computation that, when it returns, has kept every block there was
    with its content. *)
Definition growing {D A} (m : M D A) : Prop :=
  ∀ σ x σ', m σ = Some (x, σ') → heap σ ⊆ heap σ'.

(** ** Properties *)

Section Properties.

Context {D : Type} `{!Database D}.

Implicit Types (w : Worker) (σ : World D) (s : Slice) (f : JsFunction).

(** *** Helper lemmas on the primitives *)

Lemma substring_all (b : string) :
  String.substring 0 (String.length b) b = b.
Proof. induction b as [|c b IH]; simpl; [done | by rewrite IH]. Qed.

Lemma Call_some a f argv σ :
  callback a = Some f →
  Call a argv σ
  = Some (tt, mkWorld (db σ) (heap σ) (carriers σ) (trace σ ++ [EvCall f argv])).
Proof. intros Hf. unfold Call. by rewrite Hf. Qed.

Lemma delete_callback_some a f σ :
  callback a = Some f →
  delete_callback a σ
  = Some (mkAsyncWorker None (status a) (persistent a),
          mkWorld (db σ) (heap σ) (carriers σ) (trace σ ++ [EvDeleteCallback f])).
Proof. intros Hf. unfold delete_callback. by rewrite Hf. Qed.

Lemma Dispose_held handle s σ :
  held s σ →
  ∃ c, carriers σ !! data s = Some c ∧ released c = false ∧
       DisposeStringOrBufferFromSlice handle s σ
       = Some (tt, mkWorld (db σ) (heap σ)
                     (<[data s := release c]> (carriers σ))
                     (trace σ ++ [EvDispose handle s])).
Proof.
  intros (c & Hc & Hr). exists c. split_and!; [done..|].
  unfold DisposeStringOrBufferFromSlice. by rewrite Hc, Hr.
Qed.

Lemma db_calls_app es1 es2 : db_calls (es1 ++ es2) = db_calls es1 ++ db_calls es2.
Proof. apply omap_app. Qed.

Lemma calls_app es1 es2 : calls (es1 ++ es2) = calls es1 ++ calls es2.
Proof. apply omap_app. Qed.

Lemma calls_zip_dispose (hs : list JsValue) (ss : list Slice) :
  calls (zip_with EvDispose hs ss) = [].
Proof. revert ss. induction hs as [|h hs IH]; intros [|s ss]; cbn; auto. Qed.

Lemma disposals_app p es1 es2 :
  disposals p (es1 ++ es2) = (disposals p es1 + disposals p es2)%nat.
Proof. unfold disposals. by rewrite List.filter_app, length_app. Qed.

(** *** OPEN WORKER *)

Lemma uint32_bounds (x : uint32_t) : 0 ≤ uint32_val x < 2 ^ 32.
Proof.
  destruct x as [v Hv]. cbn. unfold is_uint32 in Hv.
  apply andb_true_iff in Hv as [H0 H1].
  apply Z.leb_le in H0. apply Z.ltb_lt in H1. done.
Qed.

(** A [uint32_t] fits a [size_t]. *)
Lemma to_size_t_uint32 (x : uint32_t) : to_size_t (uint32_val x) = uint32_val x.
Proof.
  pose proof (uint32_bounds x) as Hx. unfold to_size_t.
  apply Z.mod_small. split; [lia|].
  apply Z.lt_le_trans with (2 ^ 32); [lia|]. by apply Z.pow_le_mono_r.
Qed.

(** A [uint32_t] fits an [int] below 2^31 and wraps to a negative number
    from there on. *)
Lemma to_int_uint32 (x : uint32_t) : to_int (uint32_val x) = seen_as_int x.
Proof.
  pose proof (uint32_bounds x) as Hx. unfold to_int, seen_as_int.
  change (2 ^ 32) with 4294967296 in *. change (2 ^ 31) with 2147483648.
  destruct (Z.ltb_spec (uint32_val x) 2147483648) as [Hlt|Hge].
  - rewrite Z.mod_small by lia. lia.
  - replace (uint32_val x + 2147483648)
      with (uint32_val x - 2147483648 + 1 * 4294967296) by lia.
    rewrite Z_mod_plus_full, Z.mod_small by lia. lia.
Qed.

Lemma seen_as_int_range (x : uint32_t) : - 2 ^ 31 ≤ seen_as_int x < 2 ^ 31.
Proof.
  pose proof (uint32_bounds x) as Hx. unfold seen_as_int.
  change (2 ^ 32) with 4294967296 in *. change (2 ^ 31) with 2147483648.
  destruct (Z.ltb_spec (uint32_val x) 2147483648); lia.
Qed.

Lemma seen_as_int_unchanged (x : uint32_t) :
  seen_as_int x = uint32_val x ↔ uint32_val x < 2 ^ 31.
Proof.
  unfold seen_as_int.
  change (2 ^ 32) with 4294967296. change (2 ^ 31) with 2147483648.
  destruct (Z.ltb_spec (uint32_val x) 2147483648); lia.
Qed.

(** C4, amended. Whatever open options the constructor receives, the
    options struct [Execute] hands to the database handle's open carries
    [createIfMissing], [errorIfExists], [writeBufferSize] and [blockSize]
    unchanged, Snappy compression when [compression] is true and none
    when it is false. [maxOpenFiles] and [blockRestartInterval] arrive in
    fields of type [int]: unchanged exactly when below 2^31, and as the
    negative number 2^32 less from there on. *)
Theorem OpenWorker_options_forwarded
    f (blockCache filterPolicy : Ptr)
    (createIfMissing errorIfExists compression_ : bool)
    (writeBufferSize blockSize maxOpenFiles blockRestartInterval : uint32_t)
    σ :
  let w := OpenWorker_ctor f blockCache filterPolicy createIfMissing
             errorIfExists compression_ writeBufferSize blockSize
             maxOpenFiles blockRestartInterval in
  ∃ o w' σ',
    Execute w σ = Some (w', σ') ∧
    db_calls (trace σ') = db_calls (trace σ)
                          ++ [(CallOpen o, RStatus (fst (OpenDatabase o (db σ))))] ∧
    db σ' = snd (OpenDatabase o (db σ)) ∧
    create_if_missing o = createIfMissing ∧
    error_if_exists o = errorIfExists ∧
    write_buffer_size o = uint32_val writeBufferSize ∧
    block_size o = uint32_val blockSize ∧
    max_open_files o = seen_as_int maxOpenFiles ∧
    (max_open_files o = uint32_val maxOpenFiles
     ↔ uint32_val maxOpenFiles < 2 ^ 31) ∧
    block_restart_interval o = seen_as_int blockRestartInterval ∧
    (block_restart_interval o = uint32_val blockRestartInterval
     ↔ uint32_val blockRestartInterval < 2 ^ 31) ∧
    block_cache o = blockCache ∧
    filter_policy o = filterPolicy ∧
    compression o = (if compression_ then kSnappyCompression
                     else kNoCompression).
Proof.
  intros w. subst w.
  unfold Execute, OpenWorker_ctor, OpenWorker_Execute, bind, call_db, ret.
  cbn [payload base].
  match goal with |- context [OpenDatabase ?o] => set (opts := o) end.
  destruct (OpenDatabase opts (db σ)) as [st d] eqn:Hopen.
  eexists opts, _, _. split; [reflexivity|]. cbn [trace db fst snd].
  rewrite Hopen, db_calls_app. subst opts.
  cbn [create_if_missing error_if_exists write_buffer_size block_size
       max_open_files block_restart_interval block_cache filter_policy
       compression].
  rewrite !to_size_t_uint32, !to_int_uint32.
  split_and!; try done; apply seen_as_int_unchanged.
Qed.

(** *** CLOSE WORKER *)

Lemma CloseWorker_WorkComplete_spec w σ f :
  payload w = Close →
  callback (base w) = Some f →
  CloseWorker_WorkComplete w σ
  = Some (with_base (mkAsyncWorker None (status (base w))
                       (persistent (base w))) w,
          mkWorld (db σ) (heap σ) (carriers σ)
            (trace σ ++ [EvCall f [JsNull; JsNull]; EvDeleteCallback f])).
Proof.
  intros Hp Hf. unfold CloseWorker_WorkComplete.
  unfold bind, HandleOKCallback, AsyncWorker_HandleOKCallback. rewrite Hp.
  rewrite (Call_some _ f) by done.
  rewrite (delete_callback_some _ f) by done.
  cbn. by rewrite <- app_assoc.
Qed.

(** C9. The completion of a close worker calls the callback once, with a
    null error, whatever the status slot holds, and then deletes the
    callback reference and nulls it. *)
Theorem CloseWorker_WorkComplete_always_ok w σ f :
  payload w = Close →
  callback (base w) = Some f →
  ∃ w' σ' argv,
    WorkComplete w σ = Some (w', σ') ∧
    trace σ' = trace σ ++ [EvCall f argv; EvDeleteCallback f] ∧
    success_shape argv = true ∧
    callback (base w') = None ∧
    status (base w') = status (base w).
Proof.
  intros Hp Hf. unfold WorkComplete. rewrite Hp.
  rewrite (CloseWorker_WorkComplete_spec w σ f Hp Hf).
  by eexists _, _, _.
Qed.

(** *** What [Execute] does, for each class *)

Lemma slice_bytes_held s σ :
  held s σ →
  ∃ c, carriers σ !! data s = Some c ∧
       slice_bytes s σ = Some (String.substring 0 (size s) (bytes c), σ).
Proof.
  intros (c & Hc & Hr). exists c. split; [done|].
  unfold slice_bytes. by rewrite Hc, Hr.
Qed.

Lemma held_same_carriers s σ σ' :
  carriers σ' = carriers σ → held s σ → held s σ'.
Proof. unfold held. by intros ->. Qed.

Lemma ready_transfer w w' σ σ' :
  ready w σ →
  carriers σ' = carriers σ →
  dom (heap σ') = dom (heap σ) →
  payload w' = payload w ∨
    (∃ range n m, payload w = ApproximateSize range n ∧
                  payload w' = ApproximateSize range m) →
  ready w' σ'.
Proof.
  intros (Hheld & Hnd & Hv) Hc Hd Hp.
  assert (held_slices (payload w') = held_slices (payload w)) as Hs.
  { destruct Hp as [->|(range & n & m & -> & ->)]; done. }
  unfold ready. rewrite Hs. split_and!; [|done|].
  - eapply Forall_impl; [exact Hheld|]. intros s. by apply held_same_carriers.
  - unfold value_allocated in *.
    destruct Hp as [->|(range & n & m & _ & ->)]; [|done].
    destruct (payload w); try done.
    by rewrite <- !elem_of_dom, Hd in *.
Qed.

(** *** DELETE and WRITE WORKERS: the write options *)

(** C8. For each value of the sync flag, the write options of a write
    worker are the ones the delete worker's constructor builds (the write
    worker's constructor runs it), they are the write-options struct whose
    [sync] field is the flag, and they are what the [Execute] of a write
    worker passes to the handle's put, as the [Execute] of a delete worker
    passes them to the handle's delete. *)
Theorem WriteWorker_options_as_DeleteWorker
    f (key value : Slice) (flag : bool) (keyHandle valueHandle : JsValue) σ :
  held key σ →
  held value σ →
  let wr := WriteWorker_ctor f key value flag keyHandle valueHandle in
  let de := DeleteWorker_new f key flag keyHandle in
  ∃ o wr' σw de' σd k v rw rd,
    o = snd (DeleteWorker_ctor f key flag keyHandle) ∧
    payload wr = Write key o value ∧
    payload de = Delete key o ∧
    write_options_of wr = write_options_of de ∧
    o = sync_write_options flag ∧
    sync o = flag ∧
    Execute wr σ = Some (wr', σw) ∧
    trace σw = trace σ ++ [EvDb (CallPut o k v) rw] ∧
    Execute de σ = Some (de', σd) ∧
    trace σd = trace σ ++ [EvDb (CallDelete o k) rd].
Proof.
  intros Hk Hv wr de.
  destruct (slice_bytes_held _ _ Hk) as (ck & Hck & Hsk).
  destruct (slice_bytes_held _ _ Hv) as (cv & Hcv & Hsv).
  assert (payload wr = Write key (sync_write_options flag) value) as Hwr
    by reflexivity.
  assert (payload de = Delete key (sync_write_options flag)) as Hde
    by reflexivity.
  set (k := String.substring 0 (size key) (bytes ck)) in *.
  set (v := String.substring 0 (size value) (bytes cv)) in *.
  destruct (PutToDatabase (sync_write_options flag) k v (db σ))
    as [stw dw] eqn:Hput.
  destruct (DeleteFromDatabase (sync_write_options flag) k (db σ))
    as [std dd] eqn:Hdel.
  eexists (sync_write_options flag), _, _, _, _, k, v, (RStatus stw), (RStatus std).
  split_and!; [reflexivity..| | | |].
  - unfold Execute, WriteWorker_Execute, bind, call_db, ret.
    rewrite Hwr, Hsk, Hsv, Hput. reflexivity.
  - reflexivity.
  - unfold Execute, DeleteWorker_Execute, bind, call_db, ret.
    rewrite Hde, Hsk, Hdel. reflexivity.
  - reflexivity.
Qed.

(** Closes the routine parts of a case of [Execute_spec]. *)
Ltac Execute_done :=
  eexists _, _, _, _; split; [reflexivity|];
  cbn [trace carriers base callback payload with_base SetStatus status
       result_status];
  split_and!;
  try first [ done
            | by (eapply ready_transfer; eauto)
            | match goal with H : payload _ = _ |- _ => by rewrite H end
            | by eauto ].

Lemma Execute_spec w σ :
  ready w σ →
  ∃ w' σ' c r,
    Execute w σ = Some (w', σ') ∧
    trace σ' = trace σ ++ [EvDb c r] ∧
    carriers σ' = carriers σ ∧
    callback (base w') = callback (base w) ∧
    ready w' σ' ∧
    held_slices (payload w') = held_slices (payload w) ∧
    match payload w with
    | Close => r = RVoid ∧ w' = w
    | ApproximateSize range _ =>
        ∃ n, r = RSize n ∧ w' = mkWorker (base w) (ApproximateSize range n)
    | p => payload w' = p ∧
           ∃ st, result_status r = Some st ∧ status (base w') = st
    end.
Proof.
  intros Hready. pose proof Hready as (Hheld & Hnd & Hv).
  unfold value_allocated in Hv. unfold Execute.
  destruct (payload w) as [o| |key asBuffer o value|key o|key o value|b o|range n]
    eqn:Hp; cbn [held_slices] in Hheld.
  - unfold OpenWorker_Execute, bind, call_db, ret. rewrite Hp.
    destruct (OpenDatabase o (db σ)) as [st d]. Execute_done.
  - unfold CloseWorker_Execute, bind, call_db, ret. rewrite Hp. Execute_done.
  - apply Forall_cons_1 in Hheld as [Hk _].
    destruct (slice_bytes_held _ _ Hk) as (c & Hc & Hsl).
    destruct Hv as [old Hold].
    unfold ReadWorker_Execute, bind, call_db, load, store, ret.
    rewrite Hp, Hsl, Hold.
    destruct (GetFromDatabase _ _ _ _) as [[st v] d]. cbn. rewrite Hold.
    Execute_done.
    eapply ready_transfer; eauto. cbn.
    rewrite dom_insert_L. apply elem_of_dom_2 in Hold.
    apply subseteq_union_1_L. by apply singleton_subseteq_l.
  - apply Forall_cons_1 in Hheld as [Hk _].
    destruct (slice_bytes_held _ _ Hk) as (c & Hc & Hsl).
    unfold DeleteWorker_Execute, bind, call_db, ret. rewrite Hp, Hsl.
    destruct (DeleteFromDatabase _ _ _) as [st d]. Execute_done.
  - apply Forall_cons_1 in Hheld as [Hval Hheld].
    apply Forall_cons_1 in Hheld as [Hk _].
    destruct (slice_bytes_held _ _ Hk) as (c & Hc & Hsl).
    destruct (slice_bytes_held _ _ Hval) as (cv & Hcv & Hslv).
    unfold WriteWorker_Execute, bind, call_db, ret. rewrite Hp, Hsl, Hslv.
    destruct (PutToDatabase _ _ _ _) as [st d]. Execute_done.
  - unfold BatchWorker_Execute, bind, call_db, ret. rewrite Hp.
    destruct (WriteBatchToDatabase _ _ _) as [st d]. Execute_done.
  - apply Forall_cons_1 in Hheld as [Hlo Hheld].
    apply Forall_cons_1 in Hheld as [Hhi _].
    destruct (slice_bytes_held _ _ Hlo) as (c & Hc & Hsl).
    destruct (slice_bytes_held _ _ Hhi) as (ch & Hch & Hslh).
    unfold ApproximateSizeWorker_Execute, bind, call_db, ret.
    rewrite Hp, Hsl, Hslh. Execute_done.
    eapply ready_transfer; eauto. right. cbn. eauto.
Qed.

(** *** READ WORKER: handing the value to the callback *)

Lemma alloc_fresh σ :
  let q := fresh (dom (heap σ) ∪ dom (carriers σ)) in
  heap σ !! q = None ∧ carriers σ !! q = None.
Proof.
  intros q. pose proof (is_fresh (dom (heap σ) ∪ dom (carriers σ))) as Hq.
  fold q in Hq. rewrite <- !not_elem_of_dom. set_solver.
Qed.

Lemma ReadWorker_HandleOKCallback_buffer w σ f key o value v :
  payload w = Read key true o value →
  callback (base w) = Some f →
  heap σ !! value = Some v →
  let q := fresh (dom (heap σ) ∪ dom (carriers σ)) in
  HandleOKCallback w σ
  = Some (tt, mkWorld (db σ) (<[q := v]> (heap σ)) (carriers σ)
                (trace σ ++ [EvCall f [JsNull; JsBuffer q (String.length v)]])).
Proof.
  intros Hp Hf Hv q.
  unfold HandleOKCallback, ReadWorker_HandleOKCallback. rewrite Hp.
  unfold bind, CopyBuffer, bind, load, alloc, ret, Call, emit.
  rewrite Hv, Hf. cbn. rewrite Hv. cbn. by rewrite substring_all.
Qed.

Lemma ReadWorker_HandleOKCallback_string w σ f key o value v :
  payload w = Read key false o value →
  callback (base w) = Some f →
  heap σ !! value = Some v →
  HandleOKCallback w σ
  = Some (tt, mkWorld (db σ) (heap σ) (carriers σ)
                (trace σ ++ [EvCall f [JsNull; JsStringUtf8 v]])).
Proof.
  intros Hp Hf Hv.
  unfold HandleOKCallback, ReadWorker_HandleOKCallback. rewrite Hp.
  unfold bind, NewString, bind, load, ret, Call, emit.
  rewrite Hv, Hf. cbn. rewrite Hv. cbn. by rewrite substring_all.
Qed.

(** What [Execute] leaves in the [value] member of a read worker. *)
Lemma ReadWorker_Execute_value w σ key asBuffer o value c old :
  payload w = Read key asBuffer o value →
  carriers σ !! data key = Some c → released c = false →
  heap σ !! value = Some old →
  let k := String.substring 0 (size key) (bytes c) in
  let r := GetFromDatabase o k old (db σ) in
  Execute w σ
  = Some (with_base (SetStatus (fst (fst r)) (base w)) w,
          mkWorld (snd r) (<[value := snd (fst r)]> (heap σ)) (carriers σ)
            (trace σ ++ [EvDb (CallGet o k) (RGet (fst (fst r)) (snd (fst r)))])).
Proof.
  intros Hp Hc Hr Hold k r.
  unfold Execute, ReadWorker_Execute, bind, slice_bytes, call_db, load, store, ret.
  rewrite Hp, Hc, Hr, Hold. fold k. subst r.
  destruct (GetFromDatabase o k old (db σ)) as [[st v] d]. cbn. by rewrite Hold.
Qed.

(** C7. For a read that succeeds, the callback is called with a null
    error first and, second, the value read: as a Buffer holding its bytes
    when [asBuffer] is true, as the string decoded from its bytes when it
    is false. *)
Theorem ReadWorker_result_materialized
    w σ f key asBuffer o value c old st v d :
  payload w = Read key asBuffer o value →
  callback (base w) = Some f →
  carriers σ !! data key = Some c → released c = false →
  heap σ !! value = Some old →
  GetFromDatabase o (String.substring 0 (size key) (bytes c)) old (db σ)
  = (st, v, d) →
  ok st = true →
  ∃ w1 σ1 σ2 result,
    Execute w σ = Some (w1, σ1) ∧
    status (base w1) = st ∧
    HandleOKCallback w1 σ1 = Some (tt, σ2) ∧
    trace σ2 = trace σ1 ++ [EvCall f [JsNull; result]] ∧
    (if asBuffer
     then ∃ q, result = JsBuffer q (String.length v) ∧ heap σ2 !! q = Some v
     else result = JsStringUtf8 v).
Proof.
  intros Hp Hf Hc Hr Hold Hget Hok.
  pose proof (ReadWorker_Execute_value w σ key asBuffer o value c old
                Hp Hc Hr Hold) as Hex.
  cbn zeta in Hex. rewrite Hget in Hex. cbn [fst snd] in Hex.
  set (w1 := with_base (SetStatus st (base w)) w) in *.
  match type of Hex with _ = Some (_, ?x) => set (σ1 := x) in * end.
  assert (heap σ1 !! value = Some v) as Hv by apply lookup_insert_eq.
  destruct asBuffer.
  - eexists w1, σ1, _, _. split_and!; [done|done| | |].
    + eapply ReadWorker_HandleOKCallback_buffer; [by subst w1|done|done].
    + reflexivity.
    + eexists. split; [reflexivity|]. cbn. apply lookup_insert_eq.
  - eexists w1, σ1, _, _. split_and!; [done|done| | |].
    + eapply ReadWorker_HandleOKCallback_string; [by subst w1|done|done].
    + reflexivity.
    + reflexivity.
Qed.

(** C10. For a read that succeeded with [asBuffer] true, the Buffer the
    callback receives is a new block: its address is that of no block or
    carrier there was, so not that of the worker's [value] member; it has
    the length of the value and the same bytes; and writing to the
    worker's [value] afterwards does not change what the Buffer holds. *)
Theorem ReadWorker_buffer_is_fresh_copy w σ f key o value v :
  payload w = Read key true o value →
  callback (base w) = Some f →
  heap σ !! value = Some v →
  ∃ q σ',
    HandleOKCallback w σ = Some (tt, σ') ∧
    trace σ' = trace σ ++ [EvCall f [JsNull; JsBuffer q (String.length v)]] ∧
    heap σ !! q = None ∧ carriers σ !! q = None ∧
    q ≠ value ∧
    heap σ' !! q = Some v ∧
    heap σ' !! value = Some v ∧
    (∀ p, p ≠ q → heap σ' !! p = heap σ !! p) ∧
    (∀ b, <[value := b]> (heap σ') !! q = Some v).
Proof.
  intros Hp Hf Hv.
  set (q := fresh (dom (heap σ) ∪ dom (carriers σ))).
  destruct (alloc_fresh σ) as [Hq Hqc]. fold q in Hq, Hqc.
  assert (q ≠ value) as Hne by congruence.
  eexists q, _. split.
  { by eapply ReadWorker_HandleOKCallback_buffer. }
  cbn. split_and!; try done.
  - apply lookup_insert_eq.
  - by rewrite lookup_insert_ne.
  - intros p Hpq. by rewrite lookup_insert_ne.
  - intros b. rewrite lookup_insert_ne by done. apply lookup_insert_eq.
Qed.

(** *** The completion methods *)

Lemma HandleOKCallback_spec w σ f :
  callback (base w) = Some f →
  value_allocated w σ →
  ∃ argv hp,
    HandleOKCallback w σ
    = Some (tt, mkWorld (db σ) hp (carriers σ) (trace σ ++ [EvCall f argv])) ∧
    success_shape argv = true ∧
    (∀ range n, payload w = ApproximateSize range n →
                argv = [JsNull; JsNumber (uint64_to_double n)]).
Proof.
  intros Hf Hv. unfold value_allocated in Hv.
  destruct (payload w) as [o| |key asBuffer o value|key o|key o value|b o|range n]
    eqn:Hp.
  1,2,4,5,6:
    unfold HandleOKCallback, AsyncWorker_HandleOKCallback; rewrite Hp;
    rewrite (Call_some _ f) by done; by eexists _, _.
  - destruct Hv as [v Hv]. destruct asBuffer.
    + erewrite ReadWorker_HandleOKCallback_buffer by done. by eexists _, _.
    + erewrite ReadWorker_HandleOKCallback_string by done. by eexists _, _.
  - unfold HandleOKCallback, ApproximateSizeWorker_HandleOKCallback.
    rewrite Hp. rewrite (Call_some _ f) by done.
    eexists _, _. split_and!; [done..|]. by intros ?? [= <- <-].
Qed.

Lemma AsyncWorker_WorkComplete_spec w σ f :
  callback (base w) = Some f →
  value_allocated w σ →
  ∃ argv hp,
    AsyncWorker_WorkComplete w σ
    = Some (with_base (mkAsyncWorker None (status (base w))
                         (persistent (base w))) w,
            mkWorld (db σ) hp (carriers σ)
              (trace σ ++ [EvCall f argv; EvDeleteCallback f])) ∧
    success_shape argv = ok (status (base w)) ∧
    (ok (status (base w)) = false → argv = error_argv (status (base w))) ∧
    (∀ range n, ok (status (base w)) = true →
                payload w = ApproximateSize range n →
                argv = [JsNull; JsNumber (uint64_to_double n)]).
Proof.
  intros Hf Hv. unfold AsyncWorker_WorkComplete, bind.
  destruct (ok (status (base w))) eqn:Hok.
  - destruct (HandleOKCallback_spec w σ f Hf Hv) as (argv & hp & -> & Hs & Ha).
    rewrite (delete_callback_some _ f) by done. cbn.
    eexists argv, hp. rewrite <- app_assoc. split_and!; try done. eauto.
  - unfold AsyncWorker_HandleErrorCallback.
    rewrite (Call_some _ f) by done.
    rewrite (delete_callback_some _ f) by done. cbn.
    eexists _, _. rewrite <- app_assoc. by split_and!.
Qed.

Lemma let_go_insert s c (m : gmap loc BufferCarrier) σ :
  carriers σ = <[data s := release c]> m → let_go s σ.
Proof. intros Hm. exists (release c). rewrite Hm. by rewrite lookup_insert_eq. Qed.

(** The completion of any worker: one release for each slice it holds, in
    the order of [held_slices], then one call of the callback and the
    deletion of its reference. *)
(** Closes the routine parts of a case of [WorkComplete_spec]. *)
Ltac WorkComplete_done :=
  repeat match goal with x := _ : World _ |- _ => subst x end;
  cbn [trace carriers base callback status payload with_base zip_with length
       held_slices fmap list_fmap];
  split_and!;
  try first [ reflexivity
            | by rewrite <- ?app_assoc
            | by (intros ? ?%elem_of_nil)
            | done ].

Lemma WorkComplete_spec w σ f :
  callback (base w) = Some f →
  ready w σ →
  ∃ w' σ' hs argv,
    WorkComplete w σ = Some (w', σ') ∧
    trace σ' = trace σ
               ++ zip_with EvDispose hs (held_slices (payload w))
               ++ [EvCall f argv; EvDeleteCallback f] ∧
    length hs = length (held_slices (payload w)) ∧
    callback (base w') = None ∧
    status (base w') = status (base w) ∧
    (∀ s, s ∈ held_slices (payload w) → let_go s σ') ∧
    (∀ p, p ∉ data <$> held_slices (payload w) →
          carriers σ' !! p = carriers σ !! p) ∧
    (payload w ≠ Close →
       success_shape argv = ok (status (base w)) ∧
       (ok (status (base w)) = false → argv = error_argv (status (base w))) ∧
       (∀ range n, ok (status (base w)) = true →
                   payload w = ApproximateSize range n →
                   argv = [JsNull; JsNumber (uint64_to_double n)])).
Proof.
  intros Hf (Hheld & Hnd & Hv). unfold value_allocated in Hv.
  unfold WorkComplete.
  destruct (payload w) as [o| |key asBuffer o value|key o|key o value|b o|range n]
    eqn:Hp; cbn [held_slices] in *.
  - destruct (AsyncWorker_WorkComplete_spec w σ f Hf)
      as (argv & hp & -> & H1 & H2 & H3); [by unfold value_allocated; rewrite Hp|].
    eexists _, _, [], argv. WorkComplete_done.
  - rewrite (CloseWorker_WorkComplete_spec w σ f Hp Hf).
    eexists _, _, [], _. WorkComplete_done.
  - apply Forall_cons_1 in Hheld as [Hk _].
    unfold IOWorker_WorkComplete, bind. rewrite Hp.
    destruct (Dispose_held (GetFromPersistent "key" (base w)) _ _ Hk)
      as (c & Hc & Hr & ->).
    match goal with |- context [AsyncWorker_WorkComplete w ?x] =>
      set (σ1 := x) end.
    destruct (AsyncWorker_WorkComplete_spec w σ1 f Hf)
      as (argv & hp & -> & H1 & H2 & H3); [by unfold value_allocated; rewrite Hp|].
    eexists _, _, [_], argv. WorkComplete_done.
    + intros s ->%list_elem_of_singleton. by eapply let_go_insert.
    + intros p Hpn. apply lookup_insert_ne. set_solver.
  - apply Forall_cons_1 in Hheld as [Hk _].
    unfold IOWorker_WorkComplete, bind. rewrite Hp.
    destruct (Dispose_held (GetFromPersistent "key" (base w)) _ _ Hk)
      as (c & Hc & Hr & ->).
    match goal with |- context [AsyncWorker_WorkComplete w ?x] =>
      set (σ1 := x) end.
    destruct (AsyncWorker_WorkComplete_spec w σ1 f Hf)
      as (argv & hp & -> & H1 & H2 & H3); [by unfold value_allocated; rewrite Hp|].
    eexists _, _, [_], argv. WorkComplete_done.
    + intros s ->%list_elem_of_singleton. by eapply let_go_insert.
    + intros p Hpn. apply lookup_insert_ne. set_solver.
  - apply Forall_cons_1 in Hheld as [Ha Hheld].
    apply Forall_cons_1 in Hheld as [Hb _].
    apply NoDup_cons in Hnd as [Hne%not_elem_of_cons _]. destruct Hne as [Hne _].
    unfold WriteWorker_WorkComplete, bind, IOWorker_WorkComplete, bind. rewrite ?Hp.
    destruct (Dispose_held (GetFromPersistent "value" (base w)) _ _ Ha)
      as (ca & Hca & Hra & ->).
    match goal with |- context [DisposeStringOrBufferFromSlice _ _ ?x] =>
      set (σ1 := x) end.
    assert (held (key) σ1) as Hb1.
    { destruct Hb as (cb & Hcb & Hrb). exists cb. split; [|done].
      cbn. by rewrite lookup_insert_ne. }
    destruct (Dispose_held (GetFromPersistent "key" (base w)) _ _ Hb1)
      as (cb & Hcb & Hrb & ->).
    match goal with |- context [AsyncWorker_WorkComplete w ?x] =>
      set (σ2 := x) end.
    destruct (AsyncWorker_WorkComplete_spec w σ2 f Hf)
      as (argv & hp & -> & H1 & H2 & H3); [by unfold value_allocated; rewrite Hp|].
    eexists _, _, [_; _], argv. WorkComplete_done.
    + intros s [Hs|Hs%list_elem_of_singleton]%elem_of_cons; subst s.
      * exists (release ca). split; [|done]. cbn.
        rewrite lookup_insert_ne by done. apply lookup_insert_eq.
      * by eapply let_go_insert.
    + intros p Hpn. cbn. rewrite !lookup_insert_ne; [done|set_solver..].
  - destruct (AsyncWorker_WorkComplete_spec w σ f Hf)
      as (argv & hp & -> & H1 & H2 & H3); [by unfold value_allocated; rewrite Hp|].
    eexists _, _, [], argv. WorkComplete_done.
  - apply Forall_cons_1 in Hheld as [Ha Hheld].
    apply Forall_cons_1 in Hheld as [Hb _].
    apply NoDup_cons in Hnd as [Hne%not_elem_of_cons _]. destruct Hne as [Hne _].
    unfold ApproximateSizeWorker_WorkComplete, bind. rewrite ?Hp.
    destruct (Dispose_held (GetFromPersistent "start" (base w)) _ _ Ha)
      as (ca & Hca & Hra & ->).
    match goal with |- context [DisposeStringOrBufferFromSlice _ _ ?x] =>
      set (σ1 := x) end.
    assert (held (limit range) σ1) as Hb1.
    { destruct Hb as (cb & Hcb & Hrb). exists cb. split; [|done].
      cbn. by rewrite lookup_insert_ne. }
    destruct (Dispose_held (GetFromPersistent "end" (base w)) _ _ Hb1)
      as (cb & Hcb & Hrb & ->).
    match goal with |- context [AsyncWorker_WorkComplete w ?x] =>
      set (σ2 := x) end.
    destruct (AsyncWorker_WorkComplete_spec w σ2 f Hf)
      as (argv & hp & -> & H1 & H2 & H3); [by unfold value_allocated; rewrite Hp|].
    eexists _, _, [_; _], argv. WorkComplete_done.
    + intros s [Hs|Hs%list_elem_of_singleton]%elem_of_cons; subst s.
      * exists (release ca). split; [|done]. cbn.
        rewrite lookup_insert_ne by done. apply lookup_insert_eq.
      * by eapply let_go_insert.
    + intros p Hpn. cbn. rewrite !lookup_insert_ne; [done|set_solver..].
    + intros _. split_and!; [done..|]. intros ?? Hok [= <- <-]. by eapply H3.
Qed.

(** *** Counting releases *)

Lemma disposals_zip p (hs : list JsValue) (ss : list Slice) :
  NoDup (data <$> ss) →
  length hs = length ss →
  disposals p (zip_with EvDispose hs ss)
  = if bool_decide (p ∈ data <$> ss) then 1%nat else 0%nat.
Proof.
  revert hs. induction ss as [|s ss IH]; intros hs Hnd Hlen.
  - destruct hs; [|done]. by rewrite bool_decide_eq_false_2 by set_solver.
  - destruct hs as [|h hs]; [done|].
    cbn [length fmap list_fmap] in Hlen, Hnd.
    apply NoDup_cons in Hnd as [Hs Hnd].
    assert (disposals p (zip_with EvDispose (h :: hs) (s :: ss))
            = ((if Nat.eqb (data s) p then 1 else 0)
               + disposals p (zip_with EvDispose hs ss))%nat) as ->.
    { unfold disposals. cbn. by destruct (Nat.eqb (data s) p). }
    rewrite IH by (done || lia).
    destruct (Nat.eqb_spec (data s) p) as [<-|Hne].
    + rewrite (bool_decide_eq_false_2 (data s ∈ data <$> ss)) by done.
      rewrite bool_decide_eq_true_2; [done|]. apply elem_of_cons. by left.
    + destruct (decide (p ∈ data <$> ss)) as [Hin|Hin].
      * rewrite !bool_decide_eq_true_2; [done| |done].
        apply elem_of_cons. by right.
      * rewrite !bool_decide_eq_false_2; [done| |done].
        by intros [?|?]%elem_of_cons.
Qed.

(** *** Buffer carriers across a whole operation *)

(** C1. Whatever the variant and whatever [Execute] got from the engine,
    the operation runs to the end of its completion and, in it, releases
    each carrier the worker holds once (the key's for a read, a delete
    and a write, the value's too for a write, those of both ends of the
    range for a size request) and no other: none is left held, none is
    released twice. *)
Theorem Complete_releases_each_carrier_once w σ f :
  callback (base w) = Some f →
  ready w σ →
  ∃ w' σ' es,
    dispatch w σ = Some (w', σ') ∧
    trace σ' = trace σ ++ es ∧
    (∀ s, s ∈ held_slices (payload w) →
          disposals (data s) es = 1%nat ∧ let_go s σ') ∧
    (∀ p, p ∉ data <$> held_slices (payload w) →
          disposals p es = 0%nat ∧ carriers σ' !! p = carriers σ !! p).
Proof.
  intros Hf Hready.
  destruct (Execute_spec w σ Hready)
    as (w1 & σ1 & c & r & Hex & Htr1 & Hcar1 & Hcb1 & Hready1 & Hsl & _).
  rewrite <- Hcb1 in Hf.
  destruct (WorkComplete_spec w1 σ1 f Hf Hready1)
    as (w' & σ' & hs & argv & Hwc & Htr & Hlen & _ & _ & Hgo & Hframe & _).
  rewrite Hsl in Htr, Hlen, Hgo, Hframe.
  destruct Hready as (_ & Hnd & _).
  eexists w', σ', _. split_and!.
  - unfold dispatch, bind. by rewrite Hex.
  - rewrite Htr, Htr1, <- app_assoc. reflexivity.
  - intros s Hs. split; [|by apply Hgo].
    rewrite !disposals_app, disposals_zip by done.
    rewrite bool_decide_eq_true_2; [done|].
    apply list_elem_of_fmap. by exists s.
  - intros p Hp. split; [|by rewrite Hframe, Hcar1].
    rewrite !disposals_app, disposals_zip by done.
    by rewrite bool_decide_eq_false_2.
Qed.

(** *** The status slot after [Execute] *)

(** C2, amended. Every [Execute] makes one call into the database handle.
    For an open, a read, a delete, a write and a batch, the call returns a
    status, and that status is in the worker's status slot afterwards. The
    close call returns nothing and the size call returns a size, kept in
    the worker's [size] member: these two leave the status slot as it
    was. *)
Theorem Execute_calls_handle_and_records w σ :
  ready w σ →
  ∃ w' σ' c r,
    Execute w σ = Some (w', σ') ∧
    trace σ' = trace σ ++ [EvDb c r] ∧
    match payload w with
    | Close => r = RVoid ∧ status (base w') = status (base w)
    | ApproximateSize range _ =>
        ∃ n, r = RSize n ∧ payload w' = ApproximateSize range n ∧
             status (base w') = status (base w)
    | _ => records_resulting_status w σ
    end.
Proof.
  intros Hready.
  destruct (Execute_spec w σ Hready)
    as (w1 & σ1 & c & r & Hex & Htr1 & _ & _ & _ & _ & Hk).
  exists w1, σ1, c, r. split_and!; [done..|].
  destruct (payload w); unfold records_resulting_status.
  - destruct Hk as (_ & st & ? & ?). by exists w1, σ1, c, r, st.
  - by destruct Hk as [-> ->].
  - destruct Hk as (_ & st & ? & ?). by exists w1, σ1, c, r, st.
  - destruct Hk as (_ & st & ? & ?). by exists w1, σ1, c, r, st.
  - destruct Hk as (_ & st & ? & ?). by exists w1, σ1, c, r, st.
  - destruct Hk as (_ & st & ? & ?). by exists w1, σ1, c, r, st.
  - destruct Hk as (n & -> & ->). by exists n.
Qed.

(** *** READ WORKER: a key that is not there *)

(** C3. When the engine answers a read with the NotFound status, the
    operation runs to its end and calls the callback once, in the error
    shape: the first argument is an error of kind NotFound, carrying the
    status message, and the result is null. It is not the success shape,
    and the error of any status of another kind, an I/O error among them,
    is a different value. *)
Theorem Read_NotFound_is_an_error w σ f key asBuffer o value c old st v d :
  payload w = Read key asBuffer o value →
  callback (base w) = Some f →
  carriers σ !! data key = Some c → released c = false →
  heap σ !! value = Some old →
  GetFromDatabase o (String.substring 0 (size key) (bytes c)) old (db σ)
  = (st, v, d) →
  code st = kNotFound →
  ∃ w' σ' es,
    dispatch w σ = Some (w', σ') ∧
    trace σ' = trace σ ++ es ∧
    calls es = [(f, [JsError kNotFound (message st); JsNull])] ∧
    success_shape [JsError kNotFound (message st); JsNull] = false ∧
    (∀ st', code st' ≠ kNotFound → error_argv st' ≠ error_argv st).
Proof.
  intros Hp Hf Hc Hr Hold Hget Hnf.
  assert (ready w σ) as Hready.
  { unfold ready, value_allocated. rewrite Hp. cbn.
    split_and!; [|by apply NoDup_singleton|done].
    apply Forall_singleton. by exists c. }
  destruct (Execute_spec w σ Hready)
    as (w1 & σ1 & c1 & r & Hex & Htr1 & _ & Hcb1 & Hready1 & _ & _).
  pose proof (ReadWorker_Execute_value w σ key asBuffer o value c old
                Hp Hc Hr Hold) as Hex'.
  cbn zeta in Hex'. rewrite Hget in Hex'. cbn [fst snd] in Hex'.
  rewrite Hex in Hex'. injection Hex' as Hw1 Hσ1.
  assert (status (base w1) = st) as Hst by (by subst w1).
  assert (payload w1 ≠ Close) as Hnc by (subst w1; cbn; by rewrite Hp).
  rewrite <- Hcb1 in Hf.
  destruct (WorkComplete_spec w1 σ1 f Hf Hready1)
    as (w' & σ' & hs & argv & Hwc & Htr & _ & _ & _ & _ & _ & Hargv).
  destruct (Hargv Hnc) as (_ & Herr & _).
  rewrite Hst in Herr. rewrite Herr in Htr by (unfold ok; by rewrite Hnf).
  eexists w', σ', _. split_and!.
  - unfold dispatch, bind. by rewrite Hex.
  - rewrite Htr, Htr1, <- app_assoc. reflexivity.
  - rewrite !calls_app. unfold error_argv. rewrite Hnf.
    by rewrite calls_zip_dispose.
  - reflexivity.
  - intros st' Hne. unfold error_argv. rewrite Hnf. intros [= Hk _]. done.
Qed.

(** *** APPROXIMATE SIZE WORKER *)

(** C5. A size request does not fail: for any range, [Execute] leaves the
    status slot OK, and the completion calls the callback once, in the
    success shape, with a null error and the estimate as a number. *)
Theorem ApproximateSize_never_fails
    f (start_ end_ : Slice) (startHandle endHandle : JsValue) (size0 : Z) σ :
  let w := ApproximateSizeWorker_ctor f start_ end_ startHandle endHandle
             size0 in
  ready w σ →
  ∃ w1 σ1 w' σ' es c n,
    Execute w σ = Some (w1, σ1) ∧
    trace σ1 = trace σ ++ [EvDb c (RSize n)] ∧
    ok (status (base w1)) = true ∧
    WorkComplete w1 σ1 = Some (w', σ') ∧
    trace σ' = trace σ1 ++ es ∧
    calls es = [(f, [JsNull; JsNumber (uint64_to_double n)])] ∧
    success_shape [JsNull; JsNumber (uint64_to_double n)] = true.
Proof.
  intros w Hready.
  destruct (Execute_spec w σ Hready)
    as (w1 & σ1 & c1 & r & Hex & Htr1 & _ & Hcb1 & Hready1 & _ & Hk).
  cbn in Hk. destruct Hk as (n & -> & Hw1).
  assert (callback (base w1) = Some f) as Hf by (by rewrite Hcb1).
  assert (payload w1 ≠ Close) as Hnc by (by subst w1).
  assert (ok (status (base w1)) = true) as Hok by (by subst w1).
  destruct (WorkComplete_spec w1 σ1 f Hf Hready1)
    as (w' & σ' & hs & argv & Hwc & Htr & _ & _ & _ & _ & _ & Hargv).
  destruct (Hargv Hnc) as (_ & _ & Hnum).
  rewrite (Hnum (mkRange start_ end_) n Hok) in Htr by (by subst w1).
  eexists w1, σ1, w', σ', _, c1, n. split_and!; try done.
  rewrite !calls_app.
  by rewrite calls_zip_dispose.
Qed.

(** *** The size as a JavaScript number *)

Lemma digits2_pos_lower p : 2 ^ (Z.pos (digits2_pos p) - 1) ≤ Z.pos p.
Proof.
  induction p as [p IH|p IH|]; cbn [digits2_pos]; [| |cbn; lia].
  all: rewrite Pos2Z.inj_succ;
    replace (Z.succ (Z.pos (digits2_pos p)) - 1)
      with (Z.succ (Z.pos (digits2_pos p) - 1)) by lia;
    rewrite Z.pow_succ_r by lia; lia.
Qed.

Lemma digits2_pos_upper p : Z.pos p < 2 ^ Z.pos (digits2_pos p).
Proof.
  induction p as [p IH|p IH|]; cbn [digits2_pos]; [| |cbn; lia].
  all: rewrite Pos2Z.inj_succ, Z.pow_succ_r by lia; lia.
Qed.

Lemma digits2_pos_iter_xO p k :
  digits2_pos (Pos.iter xO p k) = (digits2_pos p + k)%positive.
Proof.
  induction k as [|k IH] using Pos.peano_ind.
  - cbn. lia.
  - rewrite Pos.iter_succ. cbn [digits2_pos]. rewrite IH. lia.
Qed.

Lemma iter_xO_value p k : Z.pos (Pos.iter xO p k) = Z.pos p * 2 ^ Z.pos k.
Proof.
  induction k as [|k IH] using Pos.peano_ind.
  - cbn. lia.
  - rewrite Pos.iter_succ, Pos2Z.inj_xO, IH, Pos2Z.inj_succ, Z.pow_succ_r by lia.
    lia.
Qed.

Lemma iter_pos_nat {A} (f : A → A) p x :
  SpecFloat.iter_pos f p x = Nat.iter (Pos.to_nat p) f x.
Proof.
  revert x. induction p as [p IH|p IH|]; intros x; cbn [SpecFloat.iter_pos].
  - rewrite !IH, Pos2Nat.inj_xI.
    replace (S (2 * Pos.to_nat p)) with (S (Pos.to_nat p + Pos.to_nat p)) by lia.
    by rewrite Nat.iter_succ_r, Nat.iter_add.
  - rewrite !IH, Pos2Nat.inj_xO.
    replace (2 * Pos.to_nat p)%nat with (Pos.to_nat p + Pos.to_nat p)%nat by lia.
    by rewrite Nat.iter_add.
  - reflexivity.
Qed.

Lemma shr_1_even q :
  shr_1 {| shr_m := Z.pos q~0; shr_r := false; shr_s := false |}
  = {| shr_m := Z.pos q; shr_r := false; shr_s := false |}.
Proof. reflexivity. Qed.

Lemma iter_shr_1_exact q k :
  SpecFloat.iter_pos shr_1 k
    {| shr_m := Z.pos (Pos.iter xO q k); shr_r := false; shr_s := false |}
  = {| shr_m := Z.pos q; shr_r := false; shr_s := false |}.
Proof.
  rewrite iter_pos_nat, Pos2Nat.inj_iter.
  induction (Pos.to_nat k) as [|n IH]; [reflexivity|].
  rewrite Nat.iter_succ_r. cbn [nat_rect]. by rewrite shr_1_even.
Qed.

(** A mantissa of 53 digits is kept as it is. *)
Lemma binary_round_aux_canonical m e :
  Z.pos (digits2_pos m) = 53 → -1074 ≤ e ≤ 971 →
  binary_round_aux 53 1024 false (Z.pos m) e loc_Exact = S754_finite false m e.
Proof.
  intros Hd He.
  assert (fexp 53 1024 (Z.pos (digits2_pos m) + e) - e = 0) as Hz
    by (unfold fexp, emin; lia).
  unfold binary_round_aux, shr_fexp.
  cbn [Zdigits2 shr_record_of_loc]. rewrite Hz.
  cbn [shr shr_m loc_of_shr_record round_nearest_even Zdigits2].
  rewrite Hz. cbn [shr shr_m].
  replace (e <=? 1024 - 53) with true by (symmetry; apply Z.leb_le; lia).
  reflexivity.
Qed.

(** A longer mantissa whose extra low digits are zero loses them and
    nothing else. *)
Lemma binary_round_aux_shift q k :
  Z.pos (digits2_pos q) = 53 → Z.pos k ≤ 971 →
  binary_round_aux 53 1024 false (Z.pos (Pos.iter xO q k)) 0 loc_Exact
  = S754_finite false q (Z.pos k).
Proof.
  intros Hd Hk.
  assert (fexp 53 1024 (Z.pos (digits2_pos (Pos.iter xO q k)) + 0) - 0 = Z.pos k)
    as Hz1.
  { rewrite digits2_pos_iter_xO. unfold fexp, emin. lia. }
  assert (fexp 53 1024 (Z.pos (digits2_pos q) + (0 + Z.pos k)) - (0 + Z.pos k) = 0)
    as Hz2 by (unfold fexp, emin; lia).
  unfold binary_round_aux, shr_fexp.
  cbn [Zdigits2 shr_record_of_loc]. rewrite Hz1.
  cbn [shr]. rewrite iter_shr_1_exact.
  cbn [shr_m loc_of_shr_record round_nearest_even Zdigits2 shr_record_of_loc].
  rewrite Hz2. cbn [shr shr_m].
  replace (0 + Z.pos k <=? 1024 - 53) with true by (symmetry; apply Z.leb_le; lia).
  reflexivity.
Qed.

Lemma binary_round_exact p :
  Z.pos (digits2_pos p) ≤ 1024 →
  representable (Z.pos p) →
  double_to_Z (binary_round 53 1024 false p 0) = Some (Z.pos p).
Proof.
  intros Hmax Hrep. unfold representable in Hrep. cbn [Zdigits2] in Hrep.
  unfold binary_round.
  assert (fexp 53 1024 (Z.pos (digits2_pos p) + 0)
          = Z.pos (digits2_pos p) - 53) as ->.
  { unfold fexp, emin. lia. }
  unfold shl_align.
  destruct (Z.pos (digits2_pos p) - 53 - 0) as [|k|k] eqn:Hk.
  - rewrite binary_round_aux_canonical by lia.
    cbn [double_to_Z]. cbn [Z.leb Z.compare]. f_equal. lia.
  - assert (Z.max 0 (Z.pos (digits2_pos p) - 53) = Z.pos k) as Hmx by lia.
    rewrite Hmx in Hrep.
    apply Z.mod_divide in Hrep as [q' Hq']; [|lia].
    destruct q' as [|q|q]; [lia| |lia].
    rewrite <- iter_xO_value in Hq'. injection Hq' as ->.
    rewrite digits2_pos_iter_xO in Hk, Hmax.
    rewrite binary_round_aux_shift by lia.
    cbn [double_to_Z]. cbn [Z.leb Z.compare].
    rewrite iter_xO_value. f_equal. lia.
  - rewrite binary_round_aux_canonical.
    + assert (Z.pos (digits2_pos p) - 53 = Z.neg k) as -> by lia.
      cbn [double_to_Z Z.leb Z.compare Z.opp].
      rewrite iter_xO_value, Z.mod_mul, Z.div_mul by lia.
      reflexivity.
    + rewrite digits2_pos_iter_xO. lia.
    + lia.
Qed.

Lemma uint64_to_double_exact n :
  0 ≤ n < 2 ^ 64 → representable n →
  double_to_Z (uint64_to_double n) = Some n.
Proof.
  intros Hn Hrep. unfold uint64_to_double, binary_normalize.
  destruct n as [|p|p]; [reflexivity| |lia].
  apply binary_round_exact; [|done].
  pose proof (digits2_pos_lower p) as Hlo.
  destruct (Z_le_gt_dec (Z.pos (digits2_pos p)) 1024) as [|Hgt]; [done|].
  assert (2 ^ 64 ≤ 2 ^ (Z.pos (digits2_pos p) - 1))
    by (apply Z.pow_le_mono_r; lia).
  lia.
Qed.

Lemma representable_small n : 0 ≤ n ≤ 2 ^ 53 → representable n.
Proof.
  intros Hn. unfold representable.
  destruct (Z.eq_dec n (2 ^ 53)) as [->|Hne]; [reflexivity|].
  destruct n as [|p|p]; [reflexivity| |lia].
  cbn [Zdigits2]. pose proof (digits2_pos_lower p) as Hlo.
  assert (Z.pos (digits2_pos p) ≤ 53) as Hd.
  { destruct (Z_le_gt_dec (Z.pos (digits2_pos p)) 53) as [|Hgt]; [done|].
    assert (2 ^ 53 ≤ 2 ^ (Z.pos (digits2_pos p) - 1))
      by (apply Z.pow_le_mono_r; lia).
    lia. }
  rewrite Z.max_l by lia. apply Z.mod_1_r.
Qed.

(** Rounding never gives an exponent below the one the number of digits
    asks for. *)
Lemma binary_round_exponent p k :
  Z.pos (digits2_pos p) - 53 = Z.pos k →
  match binary_round 53 1024 false p 0 with
  | S754_finite _ _ e => Z.pos k ≤ e
  | _ => True
  end.
Proof.
  intros Hk. unfold binary_round.
  assert (fexp 53 1024 (Z.pos (digits2_pos p) + 0) = Z.pos k) as Hf
    by (unfold fexp, emin; lia).
  rewrite Hf. unfold shl_align.
  change (Z.pos k - 0) with (Z.pos k). cbn iota beta.
  unfold binary_round_aux, shr_fexp.
  cbn [Zdigits2 shr_record_of_loc]. rewrite Hf.
  change (Z.pos k - 0) with (Z.pos k). cbn [shr].
  generalize (SpecFloat.iter_pos shr_1 k
                {| shr_m := Z.pos p; shr_r := false; shr_s := false |}).
  intros mrs.
  generalize (round_nearest_even (shr_m mrs) (loc_of_shr_record mrs)).
  intros m'.
  destruct (fexp 53 1024 (Zdigits2 m' + (0 + Z.pos k)) - (0 + Z.pos k))
    as [|n|n]; cbn [shr].
  1,3: cbn [shr_m]; destruct m' as [|m|m]; try done;
       destruct (_ <=? _); [lia|done].
  destruct (shr_m _) as [|m|m]; try done.
  destruct (_ <=? _); [lia|done].
Qed.

Lemma uint64_to_double_exact_inv n :
  0 ≤ n < 2 ^ 64 →
  double_to_Z (uint64_to_double n) = Some n → representable n.
Proof.
  intros Hn Hd. unfold representable.
  destruct n as [|p|p]; [reflexivity| |lia]. cbn [Zdigits2].
  destruct (Z.pos (digits2_pos p) - 53) as [|k|k] eqn:Hk;
    [apply Z.mod_1_r| |apply Z.mod_1_r].
  rewrite Z.max_r by lia.
  pose proof (binary_round_exponent p k Hk) as He.
  unfold uint64_to_double, binary_normalize in Hd.
  destruct (binary_round 53 1024 false p 0) as [s|s| |s m e]; try done.
  cbn [double_to_Z] in Hd.
  replace (0 <=? e) with true in Hd by (symmetry; apply Z.leb_le; lia).
  injection Hd as Hd. destruct s; [lia|].
  rewrite <- Hd. replace e with ((e - Z.pos k) + Z.pos k) by lia.
  rewrite Z.pow_add_r by lia.
  rewrite Z.mul_1_l, Z.mul_assoc. apply Z.mod_mul. lia.
Qed.

(** C6, amended. The callback of a size request receives the estimate the
    engine returned converted to a binary64, the only kind of number
    JavaScript has. The size delivered is the estimate itself exactly when
    a binary64 holds the estimate, which is so for every estimate up to
    2^53. *)
Theorem ApproximateSize_size_as_double w σ f range size0 :
  payload w = ApproximateSize range size0 →
  callback (base w) = Some f →
  ready w σ →
  ∃ w1 σ1 σ2 c n,
    Execute w σ = Some (w1, σ1) ∧
    trace σ1 = trace σ ++ [EvDb c (RSize n)] ∧
    0 ≤ n < 2 ^ 64 ∧
    HandleOKCallback w1 σ1 = Some (tt, σ2) ∧
    trace σ2 = trace σ1 ++ [EvCall f [JsNull; JsNumber (uint64_to_double n)]] ∧
    (size_delivered_exactly w σ ↔ representable n) ∧
    (n ≤ 2 ^ 53 → representable n).
Proof.
  intros Hp Hf Hready.
  pose proof Hready as (Hheld & _). rewrite Hp in Hheld. cbn in Hheld.
  apply Forall_cons_1 in Hheld as [Hlo Hheld].
  apply Forall_cons_1 in Hheld as [Hhi _].
  destruct (slice_bytes_held _ _ Hlo) as (cl & Hcl & Hsl).
  destruct (slice_bytes_held _ _ Hhi) as (ch & Hch & Hsh).
  set (lo := String.substring 0 (size (start range)) (bytes cl)) in *.
  set (hi := String.substring 0 (size (limit range)) (bytes ch)) in *.
  set (n := ApproximateSizeFromDatabase lo hi (db σ)).
  assert (Execute w σ
          = Some (mkWorker (base w) (ApproximateSize range n),
                  mkWorld (db σ) (heap σ) (carriers σ)
                    (trace σ ++ [EvDb (CallApproximateSize lo hi) (RSize n)])))
    as Hex.
  { unfold Execute, ApproximateSizeWorker_Execute, bind, call_db, ret.
    by rewrite Hp, Hsl, Hsh. }
  assert (0 ≤ n < 2 ^ 64) as Hn by apply ApproximateSize_uint64.
  match type of Hex with _ = Some (?a, ?b) =>
    set (w1 := a) in *; set (σ1 := b) in * end.
  assert (HandleOKCallback w1 σ1
          = Some (tt, mkWorld (db σ1) (heap σ1) (carriers σ1)
                        (trace σ1 ++ [EvCall f [JsNull; JsNumber (uint64_to_double n)]])))
    as Hcb.
  { unfold HandleOKCallback, ApproximateSizeWorker_HandleOKCallback. cbn.
    by rewrite (Call_some _ f). }
  eexists w1, σ1, _, _, n.
  split_and!; [done|done|lia|lia|exact Hcb|done| |].
  - split.
    + intros (w1' & σ1' & σ2' & c' & n' & f' & argv
              & Hex' & Htr' & Hcb' & Htr2' & Hsz).
      rewrite Hex in Hex'. injection Hex' as <- <-.
      cbn [trace σ1] in Htr'. apply app_inv_head in Htr'.
      injection Htr' as _ <-.
      rewrite Hcb in Hcb'. injection Hcb' as <-.
      cbn [trace] in Htr2'. apply app_inv_head in Htr2'.
      injection Htr2' as _ <-.
      by apply uint64_to_double_exact_inv.
    + intros Hrep. eexists w1, σ1, _, _, n, f, _.
      split_and!; [done|done|exact Hcb|done|].
      cbn. by apply uint64_to_double_exact.
  - intros Hle. apply representable_small. lia.
Qed.

End Properties.

(** ** The properties on the sample worlds *)

Example ReadWorker_ctor_sample :
  ReadWorker_ctor 7%nat key_a true true (JsStringUtf8 "k")
    (mkWorld (db sample_world) ∅ sample_carriers [])
  = Some (read_worker key_a true, sample_world).
Proof. vm_compute. reflexivity. Qed.

Lemma sample_held s c :
  sample_carriers !! data s = Some c → released c = false →
  held s sample_world.
Proof. intros Hc Hr. by exists c. Qed.

(** C9 on a close worker whose status slot holds an I/O error. *)
Lemma CloseWorker_WorkComplete_always_ok_witness :
  payload close_worker_failed = Close ∧
  callback (base close_worker_failed) = Some 7%nat ∧
  ∃ w' σ' argv,
    WorkComplete close_worker_failed sample_world = Some (w', σ') ∧
    trace σ' = trace sample_world ++ [EvCall 7%nat argv; EvDeleteCallback 7%nat] ∧
    success_shape argv = true ∧
    callback (base w') = None ∧
    status (base w') = status (base close_worker_failed).
Proof.
  split; [reflexivity|]. split; [reflexivity|].
  apply (CloseWorker_WorkComplete_always_ok (D:=MemDb)
           close_worker_failed sample_world 7%nat); reflexivity.
Defined.

(** The sample workers find what they need in the sample world. *)
Lemma write_worker_ready : ready write_worker sample_world.
Proof.
  split_and!; [|by apply (bool_decide_unpack _)|done].
  repeat constructor; by eapply sample_held.
Defined.

(** C1 on a write worker, which holds two carriers. *)
Lemma Complete_releases_each_carrier_once_witness :
  callback (base write_worker) = Some 7%nat ∧
  ready write_worker sample_world ∧
  ∃ w' σ' es,
    dispatch write_worker sample_world = Some (w', σ') ∧
    trace σ' = trace sample_world ++ es ∧
    (∀ s, s ∈ held_slices (payload write_worker) →
          disposals (data s) es = 1%nat ∧ let_go s σ') ∧
    (∀ p, p ∉ data <$> held_slices (payload write_worker) →
          disposals p es = 0%nat ∧
          carriers σ' !! p = carriers sample_world !! p).
Proof.
  split; [reflexivity|]. split; [exact write_worker_ready|].
  apply (Complete_releases_each_carrier_once (D:=MemDb)
           write_worker sample_world 7%nat);
    [reflexivity|exact write_worker_ready].
Defined.

Lemma delete_worker_ready : ready delete_worker sample_world.
Proof.
  split_and!; [|by apply (bool_decide_unpack _)|done].
  repeat constructor; by eapply sample_held.
Defined.

(** C2, amended, on a delete worker. *)
Lemma Execute_calls_handle_and_records_witness :
  ready delete_worker sample_world ∧
  ∃ w' σ' c r,
    Execute delete_worker sample_world = Some (w', σ') ∧
    trace σ' = trace sample_world ++ [EvDb c r] ∧
    records_resulting_status delete_worker sample_world.
Proof.
  split; [exact delete_worker_ready|].
  exact (Execute_calls_handle_and_records (D:=MemDb)
           delete_worker sample_world delete_worker_ready).
Defined.

(** C2, refuted as stated: the [Execute] of a close worker calls into the
    handle, the call returns no status, and none is recorded. *)
Lemma CloseWorker_Execute_records_no_status :
  ¬ records_resulting_status (CloseWorker_ctor 7%nat) sample_world.
Proof.
  intros (w' & σ' & c & r & st & Hex & Htr & Hst & _).
  vm_compute in Hex. injection Hex as _ <-.
  cbn in Htr. injection Htr as _ <-. discriminate Hst.
Qed.

(** C4, refuted as stated: [maxOpenFiles] = 2^32 - 1 reaches the handle's
    open as -1. *)
Lemma OpenWorker_max_open_files_wraps :
  ¬ options_forwarded_unchanged 7%nat 0%N 0%N true false true
      (mkUint32 4194304 eq_refl) (mkUint32 4096 eq_refl)
      (mkUint32 4294967295 eq_refl) (mkUint32 16 eq_refl) sample_world.
Proof.
  intros (o & r & w' & σ' & Hex & Htr & _ & _ & _ & _ & Hmax & _).
  vm_compute in Hex. injection Hex as _ <-.
  cbn in Htr. injection Htr as <- _. discriminate Hmax.
Qed.

Example OpenWorker_max_open_files_sample :
  ∃ w' σ',
    Execute (OpenWorker_ctor 7%nat 0%N 0%N true false true
               (mkUint32 4194304 eq_refl) (mkUint32 4096 eq_refl)
               (mkUint32 4294967295 eq_refl) (mkUint32 16 eq_refl))
      sample_world = Some (w', σ') ∧
    ∃ o st, trace σ' = [EvDb (CallOpen o) (RStatus st)] ∧
            max_open_files o = -1 ∧
            write_buffer_size o = 4194304 ∧
            block_size o = 4096 ∧
            block_restart_interval o = 16.
Proof. eexists _, _. split; [reflexivity|]. by eexists _, _. Qed.

(** C3 on a read of the key ["zz"], which the sample store does not have. *)
Lemma Read_NotFound_is_an_error_witness :
  payload (read_worker key_zz false)
  = Read key_zz false (mkReadOptions true) 3%nat ∧
  callback (base (read_worker key_zz false)) = Some 7%nat ∧
  carriers sample_world !! data key_zz
  = Some (mkCarrier "zz" InternalCopy false) ∧
  released (mkCarrier "zz" InternalCopy false) = false ∧
  heap sample_world !! 3%nat = Some "" ∧
  GetFromDatabase (mkReadOptions true)
    (String.substring 0 (size key_zz) (bytes (mkCarrier "zz" InternalCopy false)))
    "" (db sample_world)
  = (mkStatus kNotFound "", "", db sample_world) ∧
  code (mkStatus kNotFound "") = kNotFound ∧
  ∃ w' σ' es,
    dispatch (read_worker key_zz false) sample_world = Some (w', σ') ∧
    trace σ' = trace sample_world ++ es ∧
    calls es = [(7%nat, [JsError kNotFound (message (mkStatus kNotFound ""));
                         JsNull])] ∧
    success_shape [JsError kNotFound (message (mkStatus kNotFound "")); JsNull]
    = false ∧
    (∀ st', code st' ≠ kNotFound →
            error_argv st' ≠ error_argv (mkStatus kNotFound "")).
Proof.
  split_and!; [reflexivity..|].
  apply (Read_NotFound_is_an_error (D:=MemDb)
           (read_worker key_zz false) sample_world 7%nat key_zz false
           (mkReadOptions true) 3%nat (mkCarrier "zz" InternalCopy false) ""
           (mkStatus kNotFound "") "" (db sample_world)); reflexivity.
Defined.

Lemma size_worker_ready {D} (d : D) :
  ready size_worker (mkWorld d sample_heap sample_carriers []).
Proof.
  split_and!; [|by apply (bool_decide_unpack _)|done].
  repeat constructor; eexists; split; reflexivity.
Defined.

(** C5 on a size request for the range from ["a"] to ["zz"]. *)
Lemma ApproximateSize_never_fails_witness :
  ready size_worker sample_world ∧
  ∃ w1 σ1 w' σ' es c n,
    Execute size_worker sample_world = Some (w1, σ1) ∧
    trace σ1 = trace sample_world ++ [EvDb c (RSize n)] ∧
    ok (status (base w1)) = true ∧
    WorkComplete w1 σ1 = Some (w', σ') ∧
    trace σ' = trace σ1 ++ es ∧
    calls es = [(7%nat, [JsNull; JsNumber (uint64_to_double n)])] ∧
    success_shape [JsNull; JsNumber (uint64_to_double n)] = true.
Proof.
  split; [exact (size_worker_ready _)|].
  exact (ApproximateSize_never_fails (D:=MemDb) 7%nat key_a key_zz
           (JsStringUtf8 "a") (JsStringUtf8 "zz") 0 sample_world
           (size_worker_ready _)).
Defined.

(** C6, amended, on the same size request. *)
Lemma ApproximateSize_size_as_double_witness :
  payload size_worker = ApproximateSize (mkRange key_a key_zz) 0 ∧
  callback (base size_worker) = Some 7%nat ∧
  ready size_worker sample_world ∧
  ∃ w1 σ1 σ2 c n,
    Execute size_worker sample_world = Some (w1, σ1) ∧
    trace σ1 = trace sample_world ++ [EvDb c (RSize n)] ∧
    0 ≤ n < 2 ^ 64 ∧
    HandleOKCallback w1 σ1 = Some (tt, σ2) ∧
    trace σ2 = trace σ1 ++ [EvCall 7%nat [JsNull; JsNumber (uint64_to_double n)]] ∧
    (size_delivered_exactly size_worker sample_world ↔ representable n) ∧
    (n ≤ 2 ^ 53 → representable n).
Proof.
  split; [reflexivity|]. split; [reflexivity|].
  split; [exact (size_worker_ready _)|].
  apply (ApproximateSize_size_as_double (D:=MemDb) size_worker sample_world
           7%nat (mkRange key_a key_zz) 0);
    [reflexivity|reflexivity|exact (size_worker_ready _)].
Defined.

(** C6, refuted as stated: an engine estimates 2^53 + 1, and the callback
    receives 2^53. *)
Lemma ApproximateSize_size_rounded :
  ¬ size_delivered_exactly size_worker large_world.
Proof.
  intros (w1 & σ1 & σ2 & c & n & f & argv & Hex & Htr & Hcb & Htr2 & Hsz).
  vm_compute in Hex. injection Hex as <- <-.
  cbn in Htr. injection Htr as _ <-.
  vm_compute in Hcb. injection Hcb as <-.
  cbn in Htr2. injection Htr2 as _ <-.
  vm_compute in Hsz. discriminate Hsz.
Qed.

Example ApproximateSize_large_delivery :
  ∃ σ', bind (Execute size_worker) HandleOKCallback large_world
        = Some (tt, σ') ∧
        db_calls (trace σ')
        = [(CallApproximateSize "a" "zz", RSize (2 ^ 53 + 1))] ∧
        (delivered_size <$> (snd <$> calls (trace σ'))) = [Some (2 ^ 53)].
Proof. eexists. split; [vm_compute; reflexivity|]. split; reflexivity. Qed.

(** C7 on a read of the key ["a"] with [asBuffer] true. *)
Lemma ReadWorker_result_materialized_witness :
  payload (read_worker key_a true)
  = Read key_a true (mkReadOptions true) 3%nat ∧
  callback (base (read_worker key_a true)) = Some 7%nat ∧
  carriers sample_world !! data key_a
  = Some (mkCarrier "a" InternalCopy false) ∧
  released (mkCarrier "a" InternalCopy false) = false ∧
  heap sample_world !! 3%nat = Some "" ∧
  GetFromDatabase (mkReadOptions true)
    (String.substring 0 (size key_a) (bytes (mkCarrier "a" InternalCopy false)))
    "" (db sample_world)
  = (OK, "1", db sample_world) ∧
  ok OK = true ∧
  ∃ w1 σ1 σ2 result,
    Execute (read_worker key_a true) sample_world = Some (w1, σ1) ∧
    status (base w1) = OK ∧
    HandleOKCallback w1 σ1 = Some (tt, σ2) ∧
    trace σ2 = trace σ1 ++ [EvCall 7%nat [JsNull; result]] ∧
    ∃ q, result = JsBuffer q (String.length "1") ∧ heap σ2 !! q = Some "1".
Proof.
  split_and!; [reflexivity..|].
  apply (ReadWorker_result_materialized (D:=MemDb)
           (read_worker key_a true) sample_world 7%nat key_a true
           (mkReadOptions true) 3%nat (mkCarrier "a" InternalCopy false) ""
           OK "1" (db sample_world)); reflexivity.
Defined.

(** C10 on the same read, once [Execute] has stored the value. *)
Lemma ReadWorker_buffer_is_fresh_copy_witness :
  payload (read_worker key_a true)
  = Read key_a true (mkReadOptions true) 3%nat ∧
  callback (base (read_worker key_a true)) = Some 7%nat ∧
  heap read_done_world !! 3%nat = Some "1" ∧
  ∃ q σ',
    HandleOKCallback (read_worker key_a true) read_done_world = Some (tt, σ') ∧
    trace σ' = trace read_done_world
               ++ [EvCall 7%nat [JsNull; JsBuffer q (String.length "1")]] ∧
    heap read_done_world !! q = None ∧ carriers read_done_world !! q = None ∧
    q ≠ 3%nat ∧
    heap σ' !! q = Some "1" ∧
    heap σ' !! 3%nat = Some "1" ∧
    (∀ p, p ≠ q → heap σ' !! p = heap read_done_world !! p) ∧
    (∀ b, <[3%nat := b]> (heap σ') !! q = Some "1").
Proof.
  split_and!; [reflexivity..|].
  apply (ReadWorker_buffer_is_fresh_copy (D:=MemDb)
           (read_worker key_a true) read_done_world 7%nat key_a
           (mkReadOptions true) 3%nat "1"); reflexivity.
Defined.

(** A second release of a carrier is a fault: the model tells a double
    release from a single one. *)
Example second_release_faults :
  bind (DisposeStringOrBufferFromSlice JsNull key_a)
    (λ _, DisposeStringOrBufferFromSlice JsNull key_a) sample_world
  = None.
Proof. vm_compute. reflexivity. Qed.

(** Whole operations on the sample world, as traces. *)

Example dispatch_read_present :
  trace <$> (snd <$> dispatch (read_worker key_a true) sample_world)
  = Some [EvDb (CallGet (mkReadOptions true) "a") (RGet OK "1");
          EvDispose (JsStringUtf8 "k") key_a;
          EvCall 7%nat [JsNull; JsBuffer 4%nat 1%nat];
          EvDeleteCallback 7%nat].
Proof. vm_compute. reflexivity. Qed.

Example dispatch_read_absent :
  trace <$> (snd <$> dispatch (read_worker key_zz false) sample_world)
  = Some [EvDb (CallGet (mkReadOptions true) "zz")
            (RGet (mkStatus kNotFound "") "");
          EvDispose (JsStringUtf8 "k") key_zz;
          EvCall 7%nat [JsError kNotFound ""; JsNull];
          EvDeleteCallback 7%nat].
Proof. vm_compute. reflexivity. Qed.

Example dispatch_write :
  trace <$> (snd <$> dispatch write_worker sample_world)
  = Some [EvDb (CallPut (mkWriteOptions true) "a" "zz") (RStatus OK);
          EvDispose (JsStringUtf8 "zz") key_zz;
          EvDispose (JsStringUtf8 "a") key_a;
          EvCall 7%nat [JsNull; JsNull];
          EvDeleteCallback 7%nat].
Proof. vm_compute. reflexivity. Qed.

Example dispatch_close :
  trace <$> (snd <$> dispatch (CloseWorker_ctor 7%nat) sample_world)
  = Some [EvDb CallClose RVoid; EvCall 7%nat [JsNull; JsNull];
          EvDeleteCallback 7%nat].
Proof. vm_compute. reflexivity. Qed.

(** C8 on a synchronous write and a synchronous delete of the key ["a"]. *)
Lemma WriteWorker_options_as_DeleteWorker_witness :
  held key_a sample_world ∧
  held key_zz sample_world ∧
  ∃ o wr' σw de' σd k v rw rd,
    o = snd (DeleteWorker_ctor 7%nat key_a true (JsStringUtf8 "a")) ∧
    payload (WriteWorker_ctor 7%nat key_a key_zz true
               (JsStringUtf8 "a") (JsStringUtf8 "zz"))
    = Write key_a o key_zz ∧
    payload (DeleteWorker_new 7%nat key_a true (JsStringUtf8 "a"))
    = Delete key_a o ∧
    write_options_of (WriteWorker_ctor 7%nat key_a key_zz true
                        (JsStringUtf8 "a") (JsStringUtf8 "zz"))
    = write_options_of (DeleteWorker_new 7%nat key_a true (JsStringUtf8 "a")) ∧
    o = sync_write_options true ∧
    sync o = true ∧
    Execute (WriteWorker_ctor 7%nat key_a key_zz true
               (JsStringUtf8 "a") (JsStringUtf8 "zz")) sample_world
    = Some (wr', σw) ∧
    trace σw = trace sample_world ++ [EvDb (CallPut o k v) rw] ∧
    Execute (DeleteWorker_new 7%nat key_a true (JsStringUtf8 "a")) sample_world
    = Some (de', σd) ∧
    trace σd = trace sample_world ++ [EvDb (CallDelete o k) rd].
Proof.
  assert (held key_a sample_world) as Ha by (eexists; split; reflexivity).
  assert (held key_zz sample_world) as Hz by (eexists; split; reflexivity).
  split; [exact Ha|]. split; [exact Hz|].
  exact (WriteWorker_options_as_DeleteWorker (D:=MemDb) 7%nat key_a key_zz true
           (JsStringUtf8 "a") (JsStringUtf8 "zz") sample_world Ha Hz).
Defined.

(** ** Further properties of the workers *)

Section MoreProperties.

Context {D : Type} `{!Database D}.

Implicit Types (w : Worker) (σ : World D) (s : Slice) (f : JsFunction).

(** *** [Execute] stays on its side of the thread boundary *)

(** What any [Execute] that returns leaves alone. *)
Lemma Execute_frame w σ w' σ' :
  Execute w σ = Some (w', σ') →
  persistent (base w') = persistent (base w) ∧
  callback (base w') = callback (base w) ∧
  carriers σ' = carriers σ ∧
  (∀ p, value_block (payload w) ≠ Some p → heap σ' !! p = heap σ !! p).
Proof.
  unfold Execute, OpenWorker_Execute, CloseWorker_Execute, ReadWorker_Execute,
    DeleteWorker_Execute, WriteWorker_Execute, BatchWorker_Execute,
    ApproximateSizeWorker_Execute, bind, call_db, slice_bytes, load, store,
    ret, fault.
  intros Hex.
  repeat (case_match; simplify_eq; try done).
  all: cbn; split_and!; try done.
  intros p Hp. apply lookup_insert_ne. congruence.
Qed.

(** X1. The [Execute] of any worker only calls into the database handle,
    once: it invokes no callback, deletes no callback reference and
    releases no carrier, and it leaves the callback reference, the
    persistent handles, the carriers and every block but a read worker's
    [value] as they were. *)
Theorem Execute_confined w σ :
  ready w σ →
  ∃ w' σ' c r,
    Execute w σ = Some (w', σ') ∧
    trace σ' = trace σ ++ [EvDb c r] ∧
    callback (base w') = callback (base w) ∧
    persistent (base w') = persistent (base w) ∧
    carriers σ' = carriers σ ∧
    (∀ p, value_block (payload w) ≠ Some p → heap σ' !! p = heap σ !! p).
Proof.
  intros Hready.
  destruct (Execute_spec w σ Hready)
    as (w' & σ' & c & r & Hex & Htr & _).
  destruct (Execute_frame w σ w' σ' Hex) as (Hper & Hcb & Hcar & Hheap).
  by exists w', σ', c, r.
Qed.

(** *** The order of a completion *)

(** Closes a case of the theorem below. *)
Ltac completion_done :=
  split; [reflexivity|];
  repeat match goal with x := _ : World _ |- _ => subst x end;
  unfold release_events;
  match goal with H : payload _ = _ |- _ => rewrite ?H end;
  cbn [trace db base callback status payload persistent with_base zip_with
       held_slices handle_names fmap list_fmap];
  split_and!; try first [ reflexivity | by rewrite <- ?app_assoc | done ].

Lemma WorkComplete_trace w σ f :
  callback (base w) = Some f →
  ready w σ →
  ∃ w' σ' argv,
    WorkComplete w σ = Some (w', σ') ∧
    trace σ' = trace σ ++ release_events w
               ++ [EvCall f argv; EvDeleteCallback f] ∧
    db σ' = db σ ∧
    status (base w') = status (base w) ∧
    persistent (base w') = persistent (base w) ∧
    payload w' = payload w.
Proof.
  intros Hf (Hheld & Hnd & Hv). unfold value_allocated in Hv.
  unfold WorkComplete.
  destruct (payload w) as [o| |key asBuffer o value|key o|key o value|b o|range n]
    eqn:Hp; cbn [held_slices] in *.
  - destruct (AsyncWorker_WorkComplete_spec w σ f Hf)
      as (argv & hp & -> & _); [by unfold value_allocated; rewrite Hp|].
    eexists _, _, argv. completion_done.
  - rewrite (CloseWorker_WorkComplete_spec w σ f Hp Hf).
    eexists _, _, _. completion_done.
  - apply Forall_cons_1 in Hheld as [Hk _].
    unfold IOWorker_WorkComplete, bind. rewrite Hp.
    destruct (Dispose_held (GetFromPersistent "key" (base w)) _ _ Hk)
      as (c & Hc & Hr & ->).
    match goal with |- context [AsyncWorker_WorkComplete w ?x] =>
      set (σ1 := x) end.
    destruct (AsyncWorker_WorkComplete_spec w σ1 f Hf)
      as (argv & hp & -> & _); [by unfold value_allocated; rewrite Hp|].
    eexists _, _, argv. completion_done.
  - apply Forall_cons_1 in Hheld as [Hk _].
    unfold IOWorker_WorkComplete, bind. rewrite Hp.
    destruct (Dispose_held (GetFromPersistent "key" (base w)) _ _ Hk)
      as (c & Hc & Hr & ->).
    match goal with |- context [AsyncWorker_WorkComplete w ?x] =>
      set (σ1 := x) end.
    destruct (AsyncWorker_WorkComplete_spec w σ1 f Hf)
      as (argv & hp & -> & _); [by unfold value_allocated; rewrite Hp|].
    eexists _, _, argv. completion_done.
  - apply Forall_cons_1 in Hheld as [Ha Hheld].
    apply Forall_cons_1 in Hheld as [Hb _].
    apply NoDup_cons in Hnd as [Hne%not_elem_of_cons _]. destruct Hne as [Hne _].
    unfold WriteWorker_WorkComplete, bind, IOWorker_WorkComplete, bind. rewrite ?Hp.
    destruct (Dispose_held (GetFromPersistent "value" (base w)) _ _ Ha)
      as (ca & Hca & Hra & ->).
    match goal with |- context [DisposeStringOrBufferFromSlice _ _ ?x] =>
      set (σ1 := x) end.
    assert (held (key) σ1) as Hb1.
    { destruct Hb as (cb & Hcb & Hrb). exists cb. split; [|done].
      cbn. by rewrite lookup_insert_ne. }
    destruct (Dispose_held (GetFromPersistent "key" (base w)) _ _ Hb1)
      as (cb & Hcb & Hrb & ->).
    match goal with |- context [AsyncWorker_WorkComplete w ?x] =>
      set (σ2 := x) end.
    destruct (AsyncWorker_WorkComplete_spec w σ2 f Hf)
      as (argv & hp & -> & _); [by unfold value_allocated; rewrite Hp|].
    eexists _, _, argv. completion_done.
  - destruct (AsyncWorker_WorkComplete_spec w σ f Hf)
      as (argv & hp & -> & _); [by unfold value_allocated; rewrite Hp|].
    eexists _, _, argv. completion_done.
  - apply Forall_cons_1 in Hheld as [Ha Hheld].
    apply Forall_cons_1 in Hheld as [Hb _].
    apply NoDup_cons in Hnd as [Hne%not_elem_of_cons _]. destruct Hne as [Hne _].
    unfold ApproximateSizeWorker_WorkComplete, bind. rewrite ?Hp.
    destruct (Dispose_held (GetFromPersistent "start" (base w)) _ _ Ha)
      as (ca & Hca & Hra & ->).
    match goal with |- context [DisposeStringOrBufferFromSlice _ _ ?x] =>
      set (σ1 := x) end.
    assert (held (limit range) σ1) as Hb1.
    { destruct Hb as (cb & Hcb & Hrb). exists cb. split; [|done].
      cbn. by rewrite lookup_insert_ne. }
    destruct (Dispose_held (GetFromPersistent "end" (base w)) _ _ Hb1)
      as (cb & Hcb & Hrb & ->).
    match goal with |- context [AsyncWorker_WorkComplete w ?x] =>
      set (σ2 := x) end.
    destruct (AsyncWorker_WorkComplete_spec w σ2 f Hf)
      as (argv & hp & -> & _); [by unfold value_allocated; rewrite Hp|].
    eexists _, _, argv. completion_done.
Qed.

(** X2. The completion of any worker first releases the slices the worker
    holds, in a fixed order (for a write [value] then [key], for a size
    request [start] then [end]) and each with the handle saved under its
    name, then invokes the callback once, then deletes the callback
    reference. It makes no call into the database handle and leaves the
    handle, the status slot and the persistent handles as they were. *)
Theorem WorkComplete_releases_then_calls w σ f :
  callback (base w) = Some f →
  ready w σ →
  ∃ w' σ' argv,
    WorkComplete w σ = Some (w', σ') ∧
    trace σ' = trace σ ++ release_events w
               ++ [EvCall f argv; EvDeleteCallback f] ∧
    db σ' = db σ ∧
    status (base w') = status (base w) ∧
    persistent (base w') = persistent (base w) ∧
    payload w' = payload w.
Proof. apply WorkComplete_trace. Qed.

(** A whole operation: one call into the handle, the releases, one call of
    the callback, the deletion of its reference. *)
Lemma dispatch_trace w σ f :
  callback (base w) = Some f →
  ready w σ →
  ∃ w1 σ1 w' σ' c r argv,
    Execute w σ = Some (w1, σ1) ∧
    dispatch w σ = Some (w', σ') ∧
    trace σ1 = trace σ ++ [EvDb c r] ∧
    persistent (base w1) = persistent (base w) ∧
    trace σ' = trace σ ++ [EvDb c r] ++ release_events w1
               ++ [EvCall f argv; EvDeleteCallback f].
Proof.
  intros Hf Hready.
  destruct (Execute_spec w σ Hready)
    as (w1 & σ1 & c & r & Hex & Htr1 & _ & Hcb1 & Hready1 & _).
  destruct (Execute_frame w σ w1 σ1 Hex) as (Hper & _).
  rewrite <- Hcb1 in Hf.
  destruct (WorkComplete_trace w1 σ1 f Hf Hready1)
    as (w' & σ' & argv & Hwc & Htr & _).
  exists w1, σ1, w', σ', c, r, argv. split_and!; try done.
  - unfold dispatch, bind. by rewrite Hex.
  - by rewrite Htr, Htr1, <- !app_assoc.
Qed.

(** *** The handles the constructors save *)

Lemma ready_one w σ s :
  held_slices (payload w) = [s] → held s σ → value_allocated w σ → ready w σ.
Proof.
  intros Hs Hh Hv. unfold ready. rewrite Hs.
  split_and!; [by apply Forall_singleton|by apply NoDup_singleton|done].
Qed.

Lemma ready_two w σ s1 s2 :
  held_slices (payload w) = [s1; s2] →
  held s1 σ → held s2 σ → data s1 ≠ data s2 →
  value_allocated w σ → ready w σ.
Proof.
  intros Hs H1 H2 Hne Hv. unfold ready. rewrite Hs.
  split_and!; [by repeat constructor| |done].
  cbn. apply NoDup_cons. split; [by intros ?%list_elem_of_singleton|].
  apply NoDup_singleton.
Qed.

(** X3. A write passes the handle's put the bytes of its key, the bytes
    of its value and write options whose [sync] is the flag it was given;
    then, in its completion, it releases the value slice with the handle
    of the value and the key slice with the handle of the key, as given
    to the constructor, before the callback is called. *)
Theorem WriteWorker_releases_with_own_handles
    f (key value : Slice) (flag : bool) (keyHandle valueHandle : JsValue)
    σ ck cv :
  carriers σ !! data key = Some ck → released ck = false →
  carriers σ !! data value = Some cv → released cv = false →
  data value ≠ data key →
  let k := String.substring 0 (size key) (bytes ck) in
  let v := String.substring 0 (size value) (bytes cv) in
  let o := {| sync := flag |} in
  ∃ w' σ' argv,
    dispatch (WriteWorker_ctor f key value flag keyHandle valueHandle) σ
    = Some (w', σ') ∧
    db σ' = snd (PutToDatabase o k v (db σ)) ∧
    status (base w') = fst (PutToDatabase o k v (db σ)) ∧
    trace σ' = trace σ
               ++ [EvDb (CallPut o k v)
                     (RStatus (fst (PutToDatabase o k v (db σ))));
                   EvDispose valueHandle value;
                   EvDispose keyHandle key;
                   EvCall f argv;
                   EvDeleteCallback f].
Proof.
  intros Hck Hrk Hcv Hrv Hne k v o.
  set (w := WriteWorker_ctor f key value flag keyHandle valueHandle).
  assert (ready w σ) as Hready.
  { apply (ready_two w σ value key); [done|by exists cv|by exists ck|done..]. }
  destruct (PutToDatabase o k v (db σ)) as [st d] eqn:Hput.
  assert (Execute w σ
          = Some (with_base (SetStatus st (base w)) w,
                  mkWorld d (heap σ) (carriers σ)
                    (trace σ ++ [EvDb (CallPut o k v) (RStatus st)]))) as Hex.
  { unfold Execute, WriteWorker_Execute, bind, call_db, slice_bytes, ret.
    change (payload w) with (Write key o value). cbn beta iota.
    rewrite Hck, Hrk, Hcv, Hrv. fold k v. by rewrite Hput. }
  destruct (dispatch_trace w σ f eq_refl Hready)
    as (w1 & σ1 & w' & σ' & c1 & r1 & argv & Hex' & Hd & Htr1 & Hper & Htr).
  rewrite Hex in Hex'. injection Hex' as <- <-.
  cbn [trace] in Htr1. apply app_inv_head in Htr1. injection Htr1 as <- <-.
  assert (WorkComplete (with_base (SetStatus st (base w)) w)
            (mkWorld d (heap σ) (carriers σ)
               (trace σ ++ [EvDb (CallPut o k v) (RStatus st)]))
          = Some (w', σ')) as Hwc.
  { unfold dispatch, bind in Hd. by rewrite Hex in Hd. }
  match type of Hwc with WorkComplete ?a ?b = _ =>
    assert (ready a b) as Hready1
      by (apply (ready_two a b value key); [done|by exists cv|by exists ck|done..]);
    destruct (WorkComplete_trace a b f eq_refl Hready1)
      as (w'' & σ'' & argv' & Hwc' & _ & Hdb & Hst & _)
  end.
  rewrite Hwc in Hwc'. injection Hwc' as <- <-.
  exists w', σ', argv. by split_and!.
Qed.

(** X4. A size request passes the handle the bytes of the start key as
    the lower end of the range and the bytes of the end key as its limit,
    and leaves the handle as it was; then, in its completion, it releases
    the start slice with the handle of the start key and the end slice
    with the handle of the end key, as given to the constructor, before
    the callback is called. *)
Theorem ApproximateSizeWorker_releases_with_own_handles
    f (start_ end_ : Slice) (startHandle endHandle : JsValue) (size0 : Z)
    σ cs ce :
  carriers σ !! data start_ = Some cs → released cs = false →
  carriers σ !! data end_ = Some ce → released ce = false →
  data start_ ≠ data end_ →
  let lo := String.substring 0 (size start_) (bytes cs) in
  let hi := String.substring 0 (size end_) (bytes ce) in
  ∃ w' σ' argv,
    dispatch (ApproximateSizeWorker_ctor f start_ end_ startHandle endHandle
                size0) σ
    = Some (w', σ') ∧
    db σ' = db σ ∧
    payload w' = ApproximateSize (mkRange start_ end_)
                   (ApproximateSizeFromDatabase lo hi (db σ)) ∧
    trace σ' = trace σ
               ++ [EvDb (CallApproximateSize lo hi)
                     (RSize (ApproximateSizeFromDatabase lo hi (db σ)));
                   EvDispose startHandle start_;
                   EvDispose endHandle end_;
                   EvCall f argv;
                   EvDeleteCallback f].
Proof.
  intros Hcs Hrs Hce Hre Hne lo hi.
  set (w := ApproximateSizeWorker_ctor f start_ end_ startHandle endHandle size0).
  set (n := ApproximateSizeFromDatabase lo hi (db σ)).
  assert (ready w σ) as Hready.
  { apply (ready_two w σ start_ end_); [done|by exists cs|by exists ce|done..]. }
  assert (Execute w σ
          = Some (mkWorker (base w) (ApproximateSize (mkRange start_ end_) n),
                  mkWorld (db σ) (heap σ) (carriers σ)
                    (trace σ ++ [EvDb (CallApproximateSize lo hi) (RSize n)])))
    as Hex.
  { unfold Execute, ApproximateSizeWorker_Execute, bind, call_db, slice_bytes, ret.
    change (payload w) with (ApproximateSize (mkRange start_ end_) size0).
    cbn beta iota. cbn [start limit]. by rewrite Hcs, Hrs, Hce, Hre. }
  destruct (dispatch_trace w σ f eq_refl Hready)
    as (w1 & σ1 & w' & σ' & c1 & r1 & argv & Hex' & Hd & Htr1 & Hper & Htr).
  rewrite Hex in Hex'. injection Hex' as <- <-.
  cbn [trace] in Htr1. apply app_inv_head in Htr1. injection Htr1 as <- <-.
  assert (WorkComplete
            (mkWorker (base w) (ApproximateSize (mkRange start_ end_) n))
            (mkWorld (db σ) (heap σ) (carriers σ)
               (trace σ ++ [EvDb (CallApproximateSize lo hi) (RSize n)]))
          = Some (w', σ')) as Hwc.
  { unfold dispatch, bind in Hd. by rewrite Hex in Hd. }
  match type of Hwc with WorkComplete ?a ?b = _ =>
    assert (ready a b) as Hready1
      by (apply (ready_two a b start_ end_);
          [done|by exists cs|by exists ce|done..]);
    destruct (WorkComplete_trace a b f eq_refl Hready1)
      as (w'' & σ'' & argv' & Hwc' & _ & Hdb & _ & _ & Hpay)
  end.
  rewrite Hwc in Hwc'. injection Hwc' as <- <-.
  exists w', σ', argv. by split_and!.
Qed.

(** X8. A delete passes the handle's delete the bytes of its key and write
    options whose [sync] is the flag it was given, records the status the
    handle returns, and in its completion releases the key slice with the
    handle of the key before the callback is called. *)
Theorem DeleteWorker_deletes_then_releases
    f (key : Slice) (flag : bool) (keyHandle : JsValue) σ ck :
  carriers σ !! data key = Some ck → released ck = false →
  let k := String.substring 0 (size key) (bytes ck) in
  let o := {| sync := flag |} in
  ∃ w' σ' argv,
    dispatch (DeleteWorker_new f key flag keyHandle) σ = Some (w', σ') ∧
    db σ' = snd (DeleteFromDatabase o k (db σ)) ∧
    status (base w') = fst (DeleteFromDatabase o k (db σ)) ∧
    trace σ' = trace σ
               ++ [EvDb (CallDelete o k)
                     (RStatus (fst (DeleteFromDatabase o k (db σ))));
                   EvDispose keyHandle key;
                   EvCall f argv;
                   EvDeleteCallback f].
Proof.
  intros Hck Hrk k o.
  set (w := DeleteWorker_new f key flag keyHandle).
  assert (ready w σ) as Hready
    by (apply (ready_one w σ key); [done|by exists ck|done]).
  destruct (DeleteFromDatabase o k (db σ)) as [st d] eqn:Hdel.
  assert (Execute w σ
          = Some (with_base (SetStatus st (base w)) w,
                  mkWorld d (heap σ) (carriers σ)
                    (trace σ ++ [EvDb (CallDelete o k) (RStatus st)]))) as Hex.
  { unfold Execute, DeleteWorker_Execute, bind, call_db, slice_bytes, ret.
    change (payload w) with (Delete key o). cbn beta iota.
    rewrite Hck, Hrk. fold k. by rewrite Hdel. }
  destruct (dispatch_trace w σ f eq_refl Hready)
    as (w1 & σ1 & w' & σ' & c1 & r1 & argv & Hex' & Hd & Htr1 & Hper & Htr).
  rewrite Hex in Hex'. injection Hex' as <- <-.
  cbn [trace] in Htr1. apply app_inv_head in Htr1. injection Htr1 as <- <-.
  assert (WorkComplete (with_base (SetStatus st (base w)) w)
            (mkWorld d (heap σ) (carriers σ)
               (trace σ ++ [EvDb (CallDelete o k) (RStatus st)]))
          = Some (w', σ')) as Hwc.
  { unfold dispatch, bind in Hd. by rewrite Hex in Hd. }
  match type of Hwc with WorkComplete ?a ?b = _ =>
    assert (ready a b) as Hready1
      by (apply (ready_one a b key); [done|by exists ck|done]);
    destruct (WorkComplete_trace a b f eq_refl Hready1)
      as (w'' & σ'' & argv' & Hwc' & _ & Hdb & Hst & _)
  end.
  rewrite Hwc in Hwc'. injection Hwc' as <- <-.
  exists w', σ', argv. by split_and!.
Qed.

(** *** READ WORKER: from the constructor to the callback *)

(** X5. The constructor of a read worker always returns; it takes a new
    block, empty, for the [value] member and changes nothing else. The
    worker it returns, run at once, passes the handle the [fillCache] flag
    it was given, the bytes of the key and an empty value to fill, then
    releases the key slice with the key's handle before the callback is
    called. *)
Theorem ReadWorker_ctor_then_dispatch
    f (key : Slice) (asBuffer fillCache : bool) (keyHandle : JsValue) σ c :
  carriers σ !! data key = Some c →
  released c = false →
  let k := String.substring 0 (size key) (bytes c) in
  let o := {| fill_cache := fillCache |} in
  ∃ w q w' σ' argv,
    ReadWorker_ctor f key asBuffer fillCache keyHandle σ
    = Some (w, mkWorld (db σ) (<[q := ""]> (heap σ)) (carriers σ) (trace σ)) ∧
    heap σ !! q = None ∧ carriers σ !! q = None ∧
    payload w = Read key asBuffer o q ∧
    dispatch w (mkWorld (db σ) (<[q := ""]> (heap σ)) (carriers σ) (trace σ))
    = Some (w', σ') ∧
    trace σ' = trace σ
               ++ [EvDb (CallGet o k)
                     (RGet (fst (fst (GetFromDatabase o k "" (db σ))))
                           (snd (fst (GetFromDatabase o k "" (db σ)))));
                   EvDispose keyHandle key;
                   EvCall f argv;
                   EvDeleteCallback f].
Proof.
  intros Hc Hr k o.
  set (q := fresh (dom (heap σ) ∪ dom (carriers σ))).
  destruct (alloc_fresh σ) as [Hq Hqc]. fold q in Hq, Hqc.
  set (σ0 := mkWorld (db σ) (<[q := ""]> (heap σ)) (carriers σ) (trace σ)).
  set (w := mkWorker
              (SaveToPersistent "key" keyHandle
                 (SaveToPersistent "key" keyHandle (AsyncWorker_ctor f)))
              (Read key asBuffer o q)).
  assert (ReadWorker_ctor f key asBuffer fillCache keyHandle σ = Some (w, σ0))
    as Hctor by reflexivity.
  assert (heap σ0 !! q = Some "") as Hv by apply lookup_insert_eq.
  assert (ready w σ0) as Hready.
  { split_and!; [|by apply NoDup_singleton|by eexists].
    apply Forall_singleton. by exists c. }
  pose proof (ReadWorker_Execute_value w σ0 key asBuffer o q c ""
                eq_refl Hc Hr Hv) as Hex.
  cbn zeta in Hex. fold k in Hex.
  destruct (dispatch_trace w σ0 f eq_refl Hready)
    as (w1 & σ1 & w' & σ' & c1 & r1 & argv & Hex' & Hd & Htr1 & Hper & Htr).
  rewrite Hex in Hex'. injection Hex' as <- <-.
  cbn [trace σ0] in Htr1. apply app_inv_head in Htr1.
  injection Htr1 as <- <-.
  exists w, q, w', σ', argv. by split_and!.
Qed.

(** *** BATCH WORKER *)

(** X6. A batch worker passes the handle the batch it was given and write
    options whose [sync] is the flag it was given, records the status the
    handle returns, and its completion releases no carrier: it only calls
    the callback and deletes its reference. It needs nothing in memory. *)
Theorem BatchWorker_forwards_batch f (batch : WriteBatch) (flag : bool) σ :
  let o := {| sync := flag |} in
  let st := fst (WriteBatchToDatabase o batch (db σ)) in
  ∃ w1 σ1 w' σ' argv,
    Execute (BatchWorker_ctor f batch flag) σ = Some (w1, σ1) ∧
    trace σ1 = trace σ ++ [EvDb (CallWriteBatch o batch) (RStatus st)] ∧
    db σ1 = snd (WriteBatchToDatabase o batch (db σ)) ∧
    status (base w1) = st ∧
    WorkComplete w1 σ1 = Some (w', σ') ∧
    trace σ' = trace σ1 ++ [EvCall f argv; EvDeleteCallback f] ∧
    carriers σ' = carriers σ.
Proof.
  intros o st. subst st.
  set (w := BatchWorker_ctor f batch flag).
  destruct (WriteBatchToDatabase o batch (db σ)) as [st d] eqn:Hwb.
  set (w1 := with_base (SetStatus st (base w)) w).
  set (σ1 := mkWorld d (heap σ) (carriers σ)
               (trace σ ++ [EvDb (CallWriteBatch o batch) (RStatus st)])).
  assert (Execute w σ = Some (w1, σ1)) as Hex.
  { unfold Execute, BatchWorker_Execute, bind, call_db, ret.
    change (payload w) with (Batch batch o). cbn beta iota.
    by rewrite Hwb. }
  assert (ready w1 σ1) as Hready by (split_and!; [constructor|constructor|done]).
  destruct (WorkComplete_trace w1 σ1 f eq_refl Hready)
    as (w' & σ' & argv & Hwc & Htr & _).
  destruct (WorkComplete_spec w1 σ1 f eq_refl Hready)
    as (w'' & σ'' & hs & argv' & Hwc' & _ & _ & _ & _ & _ & Hfr & _).
  rewrite Hwc in Hwc'. injection Hwc' as <- <-.
  exists w1, σ1, w', σ', argv. split_and!; [done..|exact Htr|].
  apply (map_eq (M:=gmap loc)). intros p.
  rewrite Hfr; [done|]. cbn. apply not_elem_of_nil.
Qed.

(** *** APPROXIMATE SIZE WORKER: the [size] member *)

(** X7. What a size request does, and what it leaves behind, does not
    depend on what the [size] member held before [Execute]: the member is
    assigned before it is read. *)
Theorem ApproximateSizeWorker_size_assigned_before_read
    f (start_ end_ : Slice) (startHandle endHandle : JsValue)
    (size0 size0' : Z) σ :
  dispatch (ApproximateSizeWorker_ctor f start_ end_ startHandle endHandle
              size0) σ
  = dispatch (ApproximateSizeWorker_ctor f start_ end_ startHandle endHandle
                size0') σ.
Proof.
  unfold dispatch, bind.
  assert (Execute (ApproximateSizeWorker_ctor f start_ end_ startHandle
                     endHandle size0) σ
          = Execute (ApproximateSizeWorker_ctor f start_ end_ startHandle
                       endHandle size0') σ) as ->; [|done].
  unfold Execute, ApproximateSizeWorker_Execute, bind. cbn.
  by repeat case_match.
Qed.

(** *** A write followed by a read *)

(** X9. Run the [Execute] of a write, then the [Execute] of a read of the
    same key bytes, then the read's [HandleOKCallback]. The handle gets
    the put of the key and value bytes, then the get of the key bytes on
    the state the put left; and whenever the engine answers that get with
    the value that was put, the read's callback receives those value
    bytes, as a Buffer or as a string. *)
Theorem write_then_read_delivers_value
    (wr rd : Worker) σ g key value wo rkey asBuffer ro vloc ck cv cr old :
  payload wr = Write key wo value →
  payload rd = Read rkey asBuffer ro vloc →
  callback (base rd) = Some g →
  carriers σ !! data key = Some ck → released ck = false →
  carriers σ !! data value = Some cv → released cv = false →
  carriers σ !! data rkey = Some cr → released cr = false →
  heap σ !! vloc = Some old →
  let k := String.substring 0 (size key) (bytes ck) in
  let v := String.substring 0 (size value) (bytes cv) in
  String.substring 0 (size rkey) (bytes cr) = k →
  let d1 := snd (PutToDatabase wo k v (db σ)) in
  snd (fst (GetFromDatabase ro k old d1)) = v →
  ∃ wr1 σ1 rd1 σ2 σ3 stw str result,
    Execute wr σ = Some (wr1, σ1) ∧
    Execute rd σ1 = Some (rd1, σ2) ∧
    HandleOKCallback rd1 σ2 = Some (tt, σ3) ∧
    trace σ3 = trace σ ++ [EvDb (CallPut wo k v) (RStatus stw);
                           EvDb (CallGet ro k) (RGet str v);
                           EvCall g [JsNull; result]] ∧
    (if asBuffer
     then ∃ q, result = JsBuffer q (String.length v) ∧ heap σ3 !! q = Some v
     else result = JsStringUtf8 v).
Proof.
  intros Hwr Hrd Hg Hck Hrk Hcv Hrv Hcr Hrr Hold k v Hsame d1 Hget.
  destruct (PutToDatabase wo k v (db σ)) as [stw dw] eqn:Hput.
  cbn [snd] in d1. subst d1.
  set (σ1 := mkWorld dw (heap σ) (carriers σ)
               (trace σ ++ [EvDb (CallPut wo k v) (RStatus stw)])).
  assert (Execute wr σ = Some (with_base (SetStatus stw (base wr)) wr, σ1))
    as Hex1.
  { unfold Execute, WriteWorker_Execute, bind, call_db, slice_bytes, ret.
    rewrite Hwr, Hck, Hrk, Hcv, Hrv. fold k v. by rewrite Hput. }
  pose proof (ReadWorker_Execute_value rd σ1 rkey asBuffer ro vloc cr old
                Hrd Hcr Hrr Hold) as Hex2.
  cbn zeta in Hex2. rewrite Hsame in Hex2. cbn [db σ1] in Hex2.
  destruct (GetFromDatabase ro k old dw) as [[str v'] dr] eqn:Hg2.
  cbn [fst snd] in Hex2, Hget. subst v'.
  match type of Hex2 with _ = Some (?a, ?b) =>
    set (rd1 := a) in *; set (σ2 := b) in * end.
  assert (heap σ2 !! vloc = Some v) as Hv by apply lookup_insert_eq.
  assert (callback (base rd1) = Some g) as Hg1 by done.
  destruct asBuffer.
  - eexists _, σ1, rd1, σ2, _, stw, str, _. split_and!; [done|done| | |].
    + eapply ReadWorker_HandleOKCallback_buffer; [by subst rd1|done|done].
    + cbn. by rewrite <- !app_assoc.
    + eexists. split; [reflexivity|]. cbn. apply lookup_insert_eq.
  - eexists _, σ1, rd1, σ2, _, stw, str, _. split_and!; [done|done| | |].
    + eapply ReadWorker_HandleOKCallback_string; [by subst rd1|done|done].
    + cbn. by rewrite <- !app_assoc.
    + reflexivity.
Qed.

(** *** The size as the nearest binary64 *)

Lemma shifted_0 p :
  0 ≤ p → shifted 0 {| shr_m := p; shr_r := false; shr_s := false |} p.
Proof.
  intros Hp. exists 0. cbn. split_and!; try lia; (split; [done|lia]).
Qed.

Lemma shr_1_m mrs :
  0 ≤ shr_m mrs →
  shr_m mrs = 2 * shr_m (shr_1 mrs) + (if shr_r (shr_1 mrs) then 1 else 0) ∧
  0 ≤ shr_m (shr_1 mrs) ∧
  shr_s (shr_1 mrs) = shr_r mrs || shr_s mrs.
Proof.
  destruct mrs as [m r s]. cbn [shr_m]. intros Hm.
  destruct m as [|[q|q|]|q]; cbn; split_and!; try lia; done.
Qed.

Lemma shifted_step j mrs p :
  0 ≤ j → shifted j mrs p → shifted (j + 1) (shr_1 mrs) p.
Proof.
  intros Hj (rem & Hrem & Hm & Hp & Hr & Hs). unfold shifted.
  destruct (shr_1_m mrs Hm) as (Hm1 & Hm1' & Hs1).
  assert (0 < 2 ^ j) as Hpos by (apply Z.pow_pos_nonneg; lia).
  assert (2 ^ (j + 1) = 2 * 2 ^ j) as Hpow by (rewrite Z.pow_add_r; lia).
  set (P := 2 ^ j) in *. clearbody P.
  set (m' := shr_m (shr_1 mrs)) in *. clearbody m'.
  assert (shr_r mrs || shr_s mrs = true ↔ rem ≠ 0) as Hrs.
  { rewrite orb_true_iff, Hr, Hs. split; [intros [?|[? ?]]; lia|].
    intros ?. destruct (Z_le_gt_dec P (2 * rem)); [by left|right; lia]. }
  rewrite Hm1 in Hp.
  destruct (shr_r (shr_1 mrs)).
  - exists (P + rem). rewrite Hpow, Hs1, Hrs.
    split_and!; [lia|lia|done|lia| | ].
    + split; [lia|done].
    + split; [lia|]. intros [? ?]. lia.
  - exists rem. rewrite Hpow, Hs1, Hrs.
    split_and!; [lia|lia|done|lia| | ].
    + split; [done|lia].
    + split; [lia|]. intros [? ?]. lia.
Qed.

Lemma shifted_iter n mrs p :
  shifted 0 mrs p → shifted (Z.of_nat n) (Nat.iter n shr_1 mrs) p.
Proof.
  intros H0. induction n as [|n IH]; [done|].
  rewrite Nat2Z.inj_succ. cbn [Nat.iter nat_rect].
  apply (shifted_step (Z.of_nat n)); [lia|done].
Qed.

Lemma round_nearest_even_close k mrs p :
  shifted k mrs p →
  let m' := round_nearest_even (shr_m mrs) (loc_of_shr_record mrs) in
  (m' = shr_m mrs ∨ m' = shr_m mrs + 1) ∧
  2 * Z.abs (m' * 2 ^ k - p) ≤ 2 ^ k.
Proof.
  intros (rem & Hrem & Hm & Hp & Hr & Hs).
  destruct mrs as [m r s]. cbn [shr_m shr_r shr_s] in *.
  set (P := 2 ^ k) in *. clearbody P.
  destruct r, s; cbn [loc_of_shr_record round_nearest_even].
  - assert (P ≤ 2 * rem) by (by apply Hr).
    assert (rem ≠ 0 ∧ 2 * rem ≠ P) as [? ?] by (by apply Hs).
    split; [by right|]. lia.
  - assert (P ≤ 2 * rem) by (by apply Hr).
    assert (¬ (rem ≠ 0 ∧ 2 * rem ≠ P)) as Hn by (rewrite <- Hs; done).
    assert (2 * rem = P) by lia.
    destruct (Z.even m); [split; [by left|lia]|split; [by right|lia]].
  - assert (¬ P ≤ 2 * rem) by (rewrite <- Hr; done).
    split; [by left|]. lia.
  - assert (¬ P ≤ 2 * rem) by (rewrite <- Hr; done).
    split; [by left|]. lia.
Qed.

Lemma digits2_pos_unique m e :
  2 ^ (e - 1) ≤ Z.pos m < 2 ^ e → Z.pos (digits2_pos m) = e.
Proof.
  intros [Hlo Hhi].
  pose proof (digits2_pos_lower m) as Hl.
  pose proof (digits2_pos_upper m) as Hu.
  destruct (Z.lt_trichotomy (Z.pos (digits2_pos m)) e) as [Hlt|[?|Hgt]]; [|done|].
  - assert (2 ^ Z.pos (digits2_pos m) ≤ 2 ^ (e - 1))
      by (apply Z.pow_le_mono_r; lia). lia.
  - assert (0 ≤ e).
    { destruct (Z_le_gt_dec 0 e); [done|]. rewrite (Z.pow_neg_r 2 e) in Hhi; lia. }
    assert (2 ^ e ≤ 2 ^ (Z.pos (digits2_pos m) - 1))
      by (apply Z.pow_le_mono_r; lia). lia.
Qed.

(** The result of rounding a mantissa of more than 53 digits. *)
Lemma binary_round_long p k :
  Z.pos (digits2_pos p) - 53 = Z.pos k → Z.pos k ≤ 970 →
  ∃ z, double_to_Z (binary_round 53 1024 false p 0) = Some z ∧
       2 * Z.abs (z - Z.pos p) ≤ 2 ^ Z.pos k ∧
       0 ≤ z ≤ 2 ^ Z.pos (digits2_pos p).
Proof.
  intros Hk Hk970.
  pose proof (digits2_pos_lower p) as Hlo.
  pose proof (digits2_pos_upper p) as Hhi.
  replace (Z.pos (digits2_pos p)) with (53 + Z.pos k) in Hlo, Hhi by lia.
  replace (53 + Z.pos k - 1) with (52 + Z.pos k) in Hlo by lia.
  rewrite Z.pow_add_r in Hlo, Hhi by lia.
  unfold binary_round.
  assert (fexp 53 1024 (Z.pos (digits2_pos p) + 0) = Z.pos k) as Hf
    by (unfold fexp, emin; lia).
  rewrite Hf. unfold shl_align.
  change (Z.pos k - 0) with (Z.pos k). cbn iota beta.
  unfold binary_round_aux, shr_fexp.
  cbn [Zdigits2 shr_record_of_loc]. rewrite Hf.
  change (Z.pos k - 0) with (Z.pos k). cbn [shr].
  rewrite iter_pos_nat.
  set (mrs := Nat.iter (Pos.to_nat k) shr_1
                {| shr_m := Z.pos p; shr_r := false; shr_s := false |}).
  assert (shifted (Z.pos k) mrs (Z.pos p)) as Hsh.
  { rewrite <- (positive_nat_Z k). apply shifted_iter, shifted_0. lia. }
  destruct (round_nearest_even_close _ _ _ Hsh) as [Hm' Hclose].
  pose proof Hsh as (rem & Hrem & Hm & Hp & _).
  set (m' := round_nearest_even (shr_m mrs) (loc_of_shr_record mrs)) in *.
  assert (0 < 2 ^ Z.pos k) as Hpos by (apply Z.pow_pos_nonneg; lia).
  set (P := 2 ^ Z.pos k) in *.
  assert (2 ^ 52 ≤ shr_m mrs < 2 ^ 53) as Hq.
  { split.
    - apply Z.nlt_ge. intros Hlt.
      assert ((shr_m mrs + 1) * P ≤ 2 ^ 52 * P)
        by (apply Z.mul_le_mono_nonneg_r; lia).
      lia.
    - apply Z.nle_gt. intros Hge.
      assert (2 ^ 53 * P ≤ shr_m mrs * P)
        by (apply Z.mul_le_mono_nonneg_r; lia).
      lia. }
  assert (2 ^ 52 ≤ m' ≤ 2 ^ 53) as Hm'b by lia.
  exists (m' * P). split; [|split; [done|]].
  2:{ replace (Z.pos (digits2_pos p)) with (53 + Z.pos k) by lia.
      rewrite Z.pow_add_r by lia. fold P.
      split; [apply Z.mul_nonneg_nonneg; lia|].
      apply Z.mul_le_mono_nonneg_r; lia. }
  destruct (Z.eq_dec m' (2 ^ 53)) as [He|Hne].
  - rewrite He. change (2 ^ 53) with 9007199254740992.
    assert (fexp 53 1024 (Zdigits2 9007199254740992 + (0 + Z.pos k))
            - (0 + Z.pos k) = 1) as ->.
    { change (Zdigits2 9007199254740992) with 54. unfold fexp, emin. lia. }
    cbn [shr SpecFloat.iter_pos shr_1 shr_m].
    replace (0 + Z.pos k + 1 <=? 1024 - 53) with true
      by (symmetry; apply Z.leb_le; lia).
    cbn [double_to_Z].
    replace (0 <=? 0 + Z.pos k + 1) with true by (symmetry; apply Z.leb_le; lia).
    f_equal. replace (0 + Z.pos k + 1) with (Z.pos k + 1) by lia.
    rewrite Z.pow_add_r by lia. fold P. lia.
  - destruct m' as [|mp|mp] eqn:Hmp; [lia| |lia].
    assert (Z.pos (digits2_pos mp) = 53) as Hd53
      by (apply digits2_pos_unique; lia).
    assert (fexp 53 1024 (Zdigits2 (Z.pos mp) + (0 + Z.pos k)) - (0 + Z.pos k) = 0)
      as -> by (cbn [Zdigits2]; unfold fexp, emin; lia).
    cbn [shr shr_m].
    replace (0 + Z.pos k <=? 1024 - 53) with true
      by (symmetry; apply Z.leb_le; lia).
    cbn [double_to_Z].
    replace (0 <=? 0 + Z.pos k) with true by (symmetry; apply Z.leb_le; lia).
    f_equal. change (0 + Z.pos k) with (Z.pos k). fold P. lia.
Qed.

(** The conversion of a [uint64_t] gives a finite number, not negative, at
    most 2^64, and as near to the integer as a binary64 can be: off by at
    most half the weight of the last digit kept. *)
Lemma uint64_to_double_nearest n :
  0 ≤ n < 2 ^ 64 →
  ∃ z, double_to_Z (uint64_to_double n) = Some z ∧
       2 * Z.abs (z - n) ≤ 2 ^ Z.max 0 (Zdigits2 n - 53) ∧
       Z.abs (z - n) ≤ 1024 ∧
       0 ≤ z ≤ 2 ^ 64.
Proof.
  intros Hn. destruct n as [|p|p]; [by exists 0| |lia].
  pose proof (digits2_pos_lower p) as Hlo.
  pose proof (digits2_pos_upper p) as Hhi.
  assert (Z.pos (digits2_pos p) ≤ 64) as Hd64.
  { destruct (Z_le_gt_dec (Z.pos (digits2_pos p)) 64) as [|Hgt]; [done|].
    assert (2 ^ 64 ≤ 2 ^ (Z.pos (digits2_pos p) - 1))
      by (apply Z.pow_le_mono_r; lia).
    lia. }
  assert (2 ^ Z.pos (digits2_pos p) ≤ 2 ^ 64) as Hp64
    by (apply Z.pow_le_mono_r; lia).
  cbn [Zdigits2].
  destruct (Z.pos (digits2_pos p) - 53) as [|k|k] eqn:Hk.
  1,3: exists (Z.pos p); split_and!;
       [apply uint64_to_double_exact; [lia|];
        unfold representable; cbn [Zdigits2]; rewrite Hk; apply Z.mod_1_r
       |rewrite Z.sub_diag; cbn; lia
       |rewrite Z.sub_diag; cbn; lia
       |lia|lia].
  destruct (binary_round_long p k Hk) as (z & Hz & Hclose & Hzb); [lia|].
  exists z. rewrite Z.max_r by lia.
  assert (2 ^ Z.pos k ≤ 2 ^ 11) by (apply Z.pow_le_mono_r; lia).
  split_and!; [done|done|lia|lia|lia].
Qed.

(** X10. The number a size request hands to its callback is finite, not
    negative and at most 2^64, and it is as near to the engine's estimate
    as a binary64 can be: off by at most half the weight of the last of
    the 53 digits kept, so by 1024 at most. *)
Theorem ApproximateSize_size_is_nearest w σ f range size0 :
  payload w = ApproximateSize range size0 →
  callback (base w) = Some f →
  ready w σ →
  ∃ w1 σ1 σ2 c n argv z,
    Execute w σ = Some (w1, σ1) ∧
    trace σ1 = trace σ ++ [EvDb c (RSize n)] ∧
    HandleOKCallback w1 σ1 = Some (tt, σ2) ∧
    trace σ2 = trace σ1 ++ [EvCall f argv] ∧
    delivered_size argv = Some z ∧
    0 ≤ z ≤ 2 ^ 64 ∧
    Z.abs (z - n) ≤ 1024 ∧
    2 * Z.abs (z - n) ≤ 2 ^ Z.max 0 (Zdigits2 n - 53).
Proof.
  intros Hp Hf Hready.
  destruct (Execute_spec w σ Hready)
    as (w1 & σ1 & c & r & Hex & Htr1 & _ & Hcb1 & _ & _ & Hk).
  rewrite Hp in Hk. destruct Hk as (n & -> & Hw1).
  assert (0 ≤ n < 2 ^ 64) as Hn.
  { revert Hex. unfold Execute, ApproximateSizeWorker_Execute, bind, call_db,
      slice_bytes, ret. rewrite Hp, Hw1.
    repeat case_match; try done. intros Heq. injection Heq as Hn _.
    rewrite <- Hn. apply ApproximateSize_uint64. }
  destruct (uint64_to_double_nearest n Hn) as (z & Hz & Hhalf & Habs & Hzb).
  assert (HandleOKCallback w1 σ1
          = Some (tt, mkWorld (db σ1) (heap σ1) (carriers σ1)
                        (trace σ1 ++ [EvCall f [JsNull; JsNumber (uint64_to_double n)]])))
    as Hcb.
  { rewrite Hw1. unfold HandleOKCallback, ApproximateSizeWorker_HandleOKCallback.
    cbn. by rewrite (Call_some _ f). }
  eexists w1, σ1, _, c, n, _, z.
  split_and!; [done|done|exact Hcb|done|exact Hz|lia|lia|done|done].
Qed.

(** *** One operation after another *)

(** The completion methods keep every block: they are built from steps
    that do. *)
Lemma growing_ret {A} (x : A) : growing (D:=D) (ret x).
Proof. intros σ y σ' [= _ <-]. done. Qed.

Lemma growing_fault {A} : growing (D:=D) (fault (A:=A)).
Proof. intros σ y σ' [=]. Qed.

Lemma growing_bind {A B} (m : M D A) (k : A → M D B) :
  growing m → (∀ x, growing (k x)) → growing (bind m k).
Proof.
  intros Hm Hk σ y σ'. unfold bind.
  destruct (m σ) as [[x σ1]|] eqn:Hmσ; [|done].
  intros Hkx. etrans; [by eapply Hm|by eapply Hk].
Qed.

Lemma growing_emit e : growing (D:=D) (emit e).
Proof. intros σ y σ' [= _ <-]. done. Qed.

Lemma growing_Call a argv : growing (D:=D) (Call a argv).
Proof.
  unfold Call. destruct (callback a); [apply growing_emit|apply growing_fault].
Qed.

Lemma growing_delete_callback a : growing (D:=D) (delete_callback a).
Proof.
  unfold delete_callback. destruct (callback a); [|apply growing_ret].
  apply growing_bind; [apply growing_emit|intros; apply growing_ret].
Qed.

Lemma growing_Dispose handle s :
  growing (D:=D) (DisposeStringOrBufferFromSlice handle s).
Proof.
  intros σ y σ'. unfold DisposeStringOrBufferFromSlice.
  repeat case_match; try done. by intros [= _ <-].
Qed.

Lemma growing_load p : growing (D:=D) (load p).
Proof. intros σ y σ'. unfold load. case_match; [|done]. by intros [= _ <-]. Qed.

Lemma growing_alloc b : growing (D:=D) (alloc b).
Proof.
  intros σ y σ'. unfold alloc. intros [= _ <-]. cbn.
  apply insert_subseteq. by destruct (alloc_fresh σ).
Qed.

Create HintDb growing discriminated.

#[local] Hint Resolve growing_ret growing_fault growing_emit growing_Call
  growing_delete_callback growing_Dispose growing_load growing_alloc
  : growing.

#[local] Hint Extern 1 (growing (bind _ _)) =>
  apply growing_bind; [|intros] : growing.

#[local] Hint Extern 2 (growing (match ?x with _ => _ end)) =>
  destruct x : growing.

#[local] Hint Extern 2 (growing (if ?x then _ else _)) =>
  destruct x : growing.

Lemma growing_HandleOKCallback w : growing (D:=D) (HandleOKCallback w).
Proof.
  unfold HandleOKCallback, ReadWorker_HandleOKCallback,
    ApproximateSizeWorker_HandleOKCallback, AsyncWorker_HandleOKCallback,
    CopyBuffer, NewString.
  destruct (payload w); auto 10 with growing.
Qed.

Lemma growing_AsyncWorker_WorkComplete w :
  growing (D:=D) (AsyncWorker_WorkComplete w).
Proof.
  unfold AsyncWorker_WorkComplete, AsyncWorker_HandleErrorCallback.
  pose proof (growing_HandleOKCallback w). auto 10 with growing.
Qed.

Lemma growing_WorkComplete w : growing (D:=D) (WorkComplete w).
Proof.
  pose proof (growing_HandleOKCallback w).
  pose proof (growing_AsyncWorker_WorkComplete w).
  unfold WorkComplete, CloseWorker_WorkComplete, WriteWorker_WorkComplete,
    IOWorker_WorkComplete, ApproximateSizeWorker_WorkComplete.
  destruct (payload w); auto 10 with growing.
Qed.

(** A whole operation, as the next one sees it. *)
Lemma dispatch_spec w σ f :
  callback (base w) = Some f →
  ready w σ →
  ∃ w' σ' argv,
    dispatch w σ = Some (w', σ') ∧
    calls (trace σ') = calls (trace σ) ++ [(f, argv)] ∧
    (∀ s, s ∈ held_slices (payload w) → let_go s σ') ∧
    (∀ p, p ∉ data <$> held_slices (payload w) →
          carriers σ' !! p = carriers σ !! p) ∧
    (∀ p, is_Some (heap σ !! p) → is_Some (heap σ' !! p)).
Proof.
  intros Hf Hready.
  destruct (Execute_spec w σ Hready)
    as (w1 & σ1 & c & r & Hex & Htr1 & Hcar1 & Hcb1 & Hready1 & Hsl & _).
  destruct (Execute_frame w σ w1 σ1 Hex) as (_ & _ & _ & Hheap).
  rewrite <- Hcb1 in Hf.
  destruct (WorkComplete_spec w1 σ1 f Hf Hready1)
    as (w' & σ' & hs & argv & Hwc & Htr & _ & _ & _ & Hgo & Hfr & _).
  rewrite Hsl in Hgo, Hfr.
  exists w', σ', argv. split_and!.
  - unfold dispatch, bind. by rewrite Hex.
  - rewrite Htr, Htr1, !calls_app, calls_zip_dispose. cbn.
    by rewrite app_nil_r.
  - done.
  - intros p Hp. by rewrite Hfr, Hcar1.
  - intros p Hsome.
    assert (is_Some (heap σ1 !! p)) as [b Hb].
    { destruct (decide (value_block (payload w) = Some p)) as [Hvb|Hvb].
      - destruct Hready1 as (_ & _ & Hva). unfold value_allocated in Hva.
        destruct (payload w) eqn:Hp; try done.
        destruct (Execute_spec w σ Hready)
          as (w1' & σ1' & c' & r' & Hex' & _ & _ & _ & _ & _ & Hk).
        rewrite Hex in Hex'. injection Hex' as <- <-.
        rewrite Hp in Hk. destruct Hk as [Hpw1 _]. rewrite Hpw1 in Hva.
        cbn in Hvb. by injection Hvb as <-.
      - by rewrite Hheap. }
    exists b. eapply lookup_weaken; [exact Hb|].
    by eapply growing_WorkComplete.
Qed.

(** X11. Two operations that hold different carriers can run one after
    the other, whatever their variants and whatever the engine answers:
    both run to the end, the callbacks are called once each, the first
    operation's first, and afterwards every carrier of both is
    released. *)
Theorem two_operations_in_sequence w1 w2 σ f1 f2 :
  callback (base w1) = Some f1 →
  callback (base w2) = Some f2 →
  ready w1 σ →
  ready w2 σ →
  (∀ s1 s2, s1 ∈ held_slices (payload w1) →
            s2 ∈ held_slices (payload w2) → data s1 ≠ data s2) →
  ∃ w1' σ1 w2' σ2 argv1 argv2,
    dispatch w1 σ = Some (w1', σ1) ∧
    dispatch w2 σ1 = Some (w2', σ2) ∧
    calls (trace σ2) = calls (trace σ) ++ [(f1, argv1); (f2, argv2)] ∧
    (∀ s, s ∈ held_slices (payload w1) ++ held_slices (payload w2) →
          let_go s σ2).
Proof.
  intros Hf1 Hf2 Hr1 Hr2 Hdisj.
  destruct (dispatch_spec w1 σ f1 Hf1 Hr1)
    as (w1' & σ1 & argv1 & Hd1 & Hc1 & Hgo1 & Hfr1 & Hh1).
  assert (ready w2 σ1) as Hr2'.
  { destruct Hr2 as (Hheld & Hnd & Hva). split_and!; [|done|].
    - apply Forall_forall. intros s Hs.
      rewrite Forall_forall in Hheld. destruct (Hheld s Hs) as (c & Hc & Hrel).
      exists c. split; [|done]. rewrite Hfr1; [done|].
      intros (s1 & Heq & Hs1)%list_elem_of_fmap.
      by apply (Hdisj s1 s Hs1 Hs).
    - unfold value_allocated in *. destruct (payload w2); try done.
      by apply Hh1. }
  destruct (dispatch_spec w2 σ1 f2 Hf2 Hr2')
    as (w2' & σ2 & argv2 & Hd2 & Hc2 & Hgo2 & Hfr2 & _).
  exists w1', σ1, w2', σ2, argv1, argv2. split_and!; [done|done| |].
  - by rewrite Hc2, Hc1, <- app_assoc.
  - intros s [Hs|Hs]%elem_of_app; [|by apply Hgo2].
    destruct (Hgo1 s Hs) as (c & Hc & Hrel). exists c. split; [|done].
    rewrite Hfr2; [done|].
    intros (s2 & Heq & Hs2)%list_elem_of_fmap.
    by apply (Hdisj s s2 Hs Hs2).
Qed.

End MoreProperties.

(** ** The further properties on the sample worlds *)

Lemma read_worker_ready key b :
  held key sample_world → ready (read_worker key b) sample_world.
Proof.
  intros Hk. split_and!; [by apply Forall_singleton|by apply NoDup_singleton|].
  by eexists.
Defined.

Lemma key_a_held : held key_a sample_world.
Proof. eexists. split; reflexivity. Defined.

Lemma key_zz_held : held key_zz sample_world.
Proof. eexists. split; reflexivity. Defined.

(** X1 on a read of the key ["a"]. *)
Lemma Execute_confined_witness :
  ready (read_worker key_a true) sample_world ∧
  ∃ w' σ' c r,
    Execute (read_worker key_a true) sample_world = Some (w', σ') ∧
    trace σ' = trace sample_world ++ [EvDb c r] ∧
    callback (base w') = callback (base (read_worker key_a true)) ∧
    persistent (base w') = persistent (base (read_worker key_a true)) ∧
    carriers σ' = carriers sample_world ∧
    (∀ p, value_block (payload (read_worker key_a true)) ≠ Some p →
          heap σ' !! p = heap sample_world !! p).
Proof.
  split; [exact (read_worker_ready key_a true key_a_held)|].
  exact (Execute_confined (D:=MemDb) (read_worker key_a true) sample_world
           (read_worker_ready key_a true key_a_held)).
Defined.

(** X2 on a write worker. *)
Lemma WorkComplete_releases_then_calls_witness :
  callback (base write_worker) = Some 7%nat ∧
  ready write_worker sample_world ∧
  ∃ w' σ' argv,
    WorkComplete write_worker sample_world = Some (w', σ') ∧
    trace σ' = trace sample_world ++ release_events write_worker
               ++ [EvCall 7%nat argv; EvDeleteCallback 7%nat] ∧
    db σ' = db sample_world ∧
    status (base w') = status (base write_worker) ∧
    persistent (base w') = persistent (base write_worker) ∧
    payload w' = payload write_worker.
Proof.
  split; [reflexivity|]. split; [exact write_worker_ready|].
  exact (WorkComplete_releases_then_calls (D:=MemDb) write_worker sample_world
           7%nat eq_refl write_worker_ready).
Defined.

(** X3 on a synchronous write of ["zz"] under the key ["a"]. *)
Lemma WriteWorker_releases_with_own_handles_witness :
  carriers sample_world !! data key_a = Some (mkCarrier "a" InternalCopy false) ∧
  released (mkCarrier "a" InternalCopy false) = false ∧
  carriers sample_world !! data key_zz
  = Some (mkCarrier "zz" InternalCopy false) ∧
  released (mkCarrier "zz" InternalCopy false) = false ∧
  data key_zz ≠ data key_a ∧
  ∃ w' σ' argv,
    dispatch (WriteWorker_ctor 7%nat key_a key_zz true
                (JsStringUtf8 "a") (JsStringUtf8 "zz")) sample_world
    = Some (w', σ') ∧
    db σ' = snd (PutToDatabase {| sync := true |} "a" "zz" (db sample_world)) ∧
    status (base w')
    = fst (PutToDatabase {| sync := true |} "a" "zz" (db sample_world)) ∧
    trace σ' = trace sample_world
               ++ [EvDb (CallPut {| sync := true |} "a" "zz")
                     (RStatus (fst (PutToDatabase {| sync := true |} "a" "zz"
                                      (db sample_world))));
                   EvDispose (JsStringUtf8 "zz") key_zz;
                   EvDispose (JsStringUtf8 "a") key_a;
                   EvCall 7%nat argv;
                   EvDeleteCallback 7%nat].
Proof.
  assert (data key_zz ≠ data key_a) as Hne by (cbn; lia).
  split_and!; [reflexivity..|exact Hne|].
  exact (WriteWorker_releases_with_own_handles (D:=MemDb) 7%nat key_a key_zz
           true (JsStringUtf8 "a") (JsStringUtf8 "zz") sample_world
           (mkCarrier "a" InternalCopy false) (mkCarrier "zz" InternalCopy false)
           eq_refl eq_refl eq_refl eq_refl Hne).
Defined.

(** X4 on a size request for the range from ["a"] to ["zz"]. *)
Lemma ApproximateSizeWorker_releases_with_own_handles_witness :
  carriers sample_world !! data key_a = Some (mkCarrier "a" InternalCopy false) ∧
  released (mkCarrier "a" InternalCopy false) = false ∧
  carriers sample_world !! data key_zz
  = Some (mkCarrier "zz" InternalCopy false) ∧
  released (mkCarrier "zz" InternalCopy false) = false ∧
  data key_a ≠ data key_zz ∧
  ∃ w' σ' argv,
    dispatch (ApproximateSizeWorker_ctor 7%nat key_a key_zz
                (JsStringUtf8 "a") (JsStringUtf8 "zz") 0) sample_world
    = Some (w', σ') ∧
    db σ' = db sample_world ∧
    payload w' = ApproximateSize (mkRange key_a key_zz)
                   (ApproximateSizeFromDatabase "a" "zz" (db sample_world)) ∧
    trace σ' = trace sample_world
               ++ [EvDb (CallApproximateSize "a" "zz")
                     (RSize (ApproximateSizeFromDatabase "a" "zz"
                               (db sample_world)));
                   EvDispose (JsStringUtf8 "a") key_a;
                   EvDispose (JsStringUtf8 "zz") key_zz;
                   EvCall 7%nat argv;
                   EvDeleteCallback 7%nat].
Proof.
  assert (data key_a ≠ data key_zz) as Hne by (cbn; lia).
  split_and!; [reflexivity..|exact Hne|].
  exact (ApproximateSizeWorker_releases_with_own_handles (D:=MemDb) 7%nat
           key_a key_zz (JsStringUtf8 "a") (JsStringUtf8 "zz") 0 sample_world
           (mkCarrier "a" InternalCopy false) (mkCarrier "zz" InternalCopy false)
           eq_refl eq_refl eq_refl eq_refl Hne).
Defined.

(** X5 on the construction of a read of the key ["a"], [fillCache] off. *)
Lemma ReadWorker_ctor_then_dispatch_witness :
  carriers sample_world !! data key_a = Some (mkCarrier "a" InternalCopy false) ∧
  released (mkCarrier "a" InternalCopy false) = false ∧
  ∃ w q w' σ' argv,
    ReadWorker_ctor 7%nat key_a false false (JsStringUtf8 "a") sample_world
    = Some (w, mkWorld (db sample_world) (<[q := ""]> (heap sample_world))
                 (carriers sample_world) (trace sample_world)) ∧
    heap sample_world !! q = None ∧ carriers sample_world !! q = None ∧
    payload w = Read key_a false {| fill_cache := false |} q ∧
    dispatch w (mkWorld (db sample_world) (<[q := ""]> (heap sample_world))
                  (carriers sample_world) (trace sample_world))
    = Some (w', σ') ∧
    trace σ' = trace sample_world
               ++ [EvDb (CallGet {| fill_cache := false |} "a")
                     (RGet (fst (fst (GetFromDatabase {| fill_cache := false |}
                                        "a" "" (db sample_world))))
                           (snd (fst (GetFromDatabase {| fill_cache := false |}
                                        "a" "" (db sample_world)))));
                   EvDispose (JsStringUtf8 "a") key_a;
                   EvCall 7%nat argv;
                   EvDeleteCallback 7%nat].
Proof.
  split_and!; [reflexivity..|].
  exact (ReadWorker_ctor_then_dispatch (D:=MemDb) 7%nat key_a false false
           (JsStringUtf8 "a") sample_world (mkCarrier "a" InternalCopy false)
           eq_refl eq_refl).
Defined.

(** X8 on a delete of the key ["a"]. *)
Lemma DeleteWorker_deletes_then_releases_witness :
  carriers sample_world !! data key_a = Some (mkCarrier "a" InternalCopy false) ∧
  released (mkCarrier "a" InternalCopy false) = false ∧
  ∃ w' σ' argv,
    dispatch (DeleteWorker_new 7%nat key_a false (JsStringUtf8 "a")) sample_world
    = Some (w', σ') ∧
    db σ' = snd (DeleteFromDatabase {| sync := false |} "a" (db sample_world)) ∧
    status (base w')
    = fst (DeleteFromDatabase {| sync := false |} "a" (db sample_world)) ∧
    trace σ' = trace sample_world
               ++ [EvDb (CallDelete {| sync := false |} "a")
                     (RStatus (fst (DeleteFromDatabase {| sync := false |} "a"
                                      (db sample_world))));
                   EvDispose (JsStringUtf8 "a") key_a;
                   EvCall 7%nat argv;
                   EvDeleteCallback 7%nat].
Proof.
  split_and!; [reflexivity..|].
  exact (DeleteWorker_deletes_then_releases (D:=MemDb) 7%nat key_a false
           (JsStringUtf8 "a") sample_world (mkCarrier "a" InternalCopy false)
           eq_refl eq_refl).
Defined.

(** X9 on a write of ["zz"] under ["a"] followed by a read of ["a"]. *)
Lemma write_then_read_delivers_value_witness :
  payload write_worker = Write key_a {| sync := true |} key_zz ∧
  payload (read_worker key_a false)
  = Read key_a false {| fill_cache := true |} 3%nat ∧
  callback (base (read_worker key_a false)) = Some 7%nat ∧
  carriers sample_world !! data key_a = Some (mkCarrier "a" InternalCopy false) ∧
  released (mkCarrier "a" InternalCopy false) = false ∧
  carriers sample_world !! data key_zz
  = Some (mkCarrier "zz" InternalCopy false) ∧
  released (mkCarrier "zz" InternalCopy false) = false ∧
  heap sample_world !! 3%nat = Some "" ∧
  String.substring 0 (size key_a) (bytes (mkCarrier "a" InternalCopy false)) = "a" ∧
  snd (fst (GetFromDatabase {| fill_cache := true |} "a" ""
              (snd (PutToDatabase {| sync := true |} "a" "zz" (db sample_world)))))
  = "zz" ∧
  ∃ wr1 σ1 rd1 σ2 σ3 stw str result,
    Execute write_worker sample_world = Some (wr1, σ1) ∧
    Execute (read_worker key_a false) σ1 = Some (rd1, σ2) ∧
    HandleOKCallback rd1 σ2 = Some (tt, σ3) ∧
    trace σ3 = trace sample_world
               ++ [EvDb (CallPut {| sync := true |} "a" "zz") (RStatus stw);
                   EvDb (CallGet {| fill_cache := true |} "a") (RGet str "zz");
                   EvCall 7%nat [JsNull; result]] ∧
    result = JsStringUtf8 "zz".
Proof.
  split_and!; [reflexivity..|].
  exact (write_then_read_delivers_value (D:=MemDb) write_worker
           (read_worker key_a false) sample_world 7%nat key_a key_zz
           {| sync := true |} key_a false {| fill_cache := true |} 3%nat
           (mkCarrier "a" InternalCopy false) (mkCarrier "zz" InternalCopy false)
           (mkCarrier "a" InternalCopy false) ""
           eq_refl eq_refl eq_refl eq_refl eq_refl eq_refl eq_refl eq_refl
           eq_refl eq_refl eq_refl eq_refl).
Defined.

(** X10 on a size request for the range from ["a"] to ["zz"]. *)
Lemma ApproximateSize_size_is_nearest_witness :
  payload size_worker = ApproximateSize (mkRange key_a key_zz) 0 ∧
  callback (base size_worker) = Some 7%nat ∧
  ready size_worker sample_world ∧
  ∃ w1 σ1 σ2 c n argv z,
    Execute size_worker sample_world = Some (w1, σ1) ∧
    trace σ1 = trace sample_world ++ [EvDb c (RSize n)] ∧
    HandleOKCallback w1 σ1 = Some (tt, σ2) ∧
    trace σ2 = trace σ1 ++ [EvCall 7%nat argv] ∧
    delivered_size argv = Some z ∧
    0 ≤ z ≤ 2 ^ 64 ∧
    Z.abs (z - n) ≤ 1024 ∧
    2 * Z.abs (z - n) ≤ 2 ^ Z.max 0 (Zdigits2 n - 53).
Proof.
  split; [reflexivity|]. split; [reflexivity|].
  split; [exact (size_worker_ready _)|].
  exact (ApproximateSize_size_is_nearest (D:=MemDb) size_worker sample_world
           7%nat (mkRange key_a key_zz) 0 eq_refl eq_refl (size_worker_ready _)).
Defined.

Lemma delete_read_disjoint s1 s2 :
  s1 ∈ held_slices (payload delete_worker) →
  s2 ∈ held_slices (payload (read_worker key_zz false)) →
  data s1 ≠ data s2.
Proof.
  intros ->%list_elem_of_singleton ->%list_elem_of_singleton. cbn. lia.
Defined.

(** X11 on a delete of ["a"] followed by a read of ["zz"]. *)
Lemma two_operations_in_sequence_witness :
  callback (base delete_worker) = Some 7%nat ∧
  callback (base (read_worker key_zz false)) = Some 7%nat ∧
  ready delete_worker sample_world ∧
  ready (read_worker key_zz false) sample_world ∧
  (∀ s1 s2, s1 ∈ held_slices (payload delete_worker) →
            s2 ∈ held_slices (payload (read_worker key_zz false)) →
            data s1 ≠ data s2) ∧
  ∃ w1' σ1 w2' σ2 argv1 argv2,
    dispatch delete_worker sample_world = Some (w1', σ1) ∧
    dispatch (read_worker key_zz false) σ1 = Some (w2', σ2) ∧
    calls (trace σ2)
    = calls (trace sample_world) ++ [(7%nat, argv1); (7%nat, argv2)] ∧
    (∀ s, s ∈ held_slices (payload delete_worker)
              ++ held_slices (payload (read_worker key_zz false)) →
          let_go s σ2).
Proof.
  split; [reflexivity|]. split; [reflexivity|].
  split; [exact delete_worker_ready|].
  split; [exact (read_worker_ready key_zz false key_zz_held)|].
  split; [exact delete_read_disjoint|].
  exact (two_operations_in_sequence (D:=MemDb) delete_worker
           (read_worker key_zz false) sample_world 7%nat 7%nat eq_refl eq_refl
           delete_worker_ready (read_worker_ready key_zz false key_zz_held)
           delete_read_disjoint).
Defined.
